(** * Audio dataset preparation: segmentation and incremental assembly

    A shallow embedding of [src/audio_data_processor.py] (class
    [AudioDataProcessor]) and the properties of its four stages: the loader
    ([load_audio_file]), the segmenter ([load_and_process_audio]), the domain
    batcher ([process_domain_files]) and the dataset assembler
    ([create_dataset_splits]).

    Modelling conventions.
    - Python [int]s are [Z]; [len] of a list or array is a [nat] injected in [Z]
      where it is compared with an [int].
    - Samples are values of an abstract floating-point type [F]; the NumPy and
      librosa operations the code calls are the fields of the class [NumPy].
    - [os.path] and [pathlib] operations are the fields of the class [OsPath]
      (they differ between POSIX and Windows).
    - Decoders ([VideoFileClip], [librosa.load]) and the wall clock are read
      from a [World]; what the program does to the outside (prints, file
      decoding, directory creation, WAV writes) is recorded in order as a list
      of [event]s.
    - A Python exception ([Exception] and subclasses) is [Raise e], [e] the
      text of the exception. A loop that never ends is [Hang].
    - [Path.mkdir] is taken to succeed. The decoders raise as the [World]
      says. [sf.write] comes in two layers: in the first part of the file it
      succeeds, and the module [WriteFaults] gives the batcher and the
      assembler with writes that can raise, which are the ones of the first
      part as long as no write does.
    - The [tqdm] progress bar and its counter [processed_count] only drive a
      display and are left out.

    The development also embeds the constructor ([Init.init], with the
    durations as IEEE binary64 floats), the counting loop of [helper.py]
    ([Helper.set_counts]) and the entry point of [data_processing.py]
    ([main], with the ledger, the file system and the two files it writes).
    The end of [helper.py], which lists the directories of one fixed path
    and prints nothing, is left out. *)

From Stdlib Require Import ZArith List String Ascii Decimal DecimalString DecimalNat.
From Stdlib Require Import PrimFloat Uint63 SpecFloat FloatOps FloatAxioms.
From stdpp Require Import gmap strings list.
Import ListNotations.

Set Default Proof Using "Type".

(** ** Python helpers *)

Module Py.

(** [l[i:j]] for a sequence [l] and integers [i], [j] (step 1): a negative
    index counts from the end, and both ends are clipped to the sequence. *)
Definition slice_index (len k : Z) : Z :=
  if (k <? 0)%Z then Z.max 0 (k + len) else Z.min k len.

Definition slice {A} (l : list A) (i j : Z) : list A :=
  let len := Z.of_nat (length l) in
  let lo := slice_index len i in
  let hi := slice_index len j in
  take (Z.to_nat (hi - lo)) (drop (Z.to_nat lo) l).

(** [str(n)] for a non-negative integer. *)
Definition str_of_nat (n : nat) : string :=
  NilEmpty.string_of_uint (Nat.to_uint n).

Fixpoint zeros (k : nat) : string :=
  match k with
  | O => EmptyString
  | S k' => String "0"%char (zeros k')
  end.

(** [f"{n:04d}"] for a non-negative integer: at least four digits,
    padded on the left with zeros. *)
Definition format_04d (n : nat) : string :=
  let s := str_of_nat n in
  zeros (4 - String.length s) +:+ s.

(** Reading a decimal numeral back (leading zeros allowed). *)
Definition parse_nat (s : string) : option nat :=
  Nat.of_uint <$> NilEmpty.uint_of_string s.

End Py.

(** ** Numeric and path interfaces *)

(** The NumPy / librosa operations used on sample buffers. [np_mean] is
    [np.mean] of a one-dimensional array, [np_square x] is [x ** 2],
    [np_ge x y] is [x >= y], [energy_floor] is the literal [0.01], and
    [librosa_normalize] is [librosa.util.normalize] with its default
    arguments (scaling by the peak magnitude), which keeps the shape. *)
Class NumPy (F : Type) := {
  np_mean : list F → F;
  np_sqrt : F → F;
  np_square : F → F;
  np_sub : F → F → F;
  np_ge : F → F → bool;
  energy_floor : F;
  librosa_normalize : list F → list F;
  librosa_normalize_length a : length (librosa_normalize a) = length a
}.

(** [basename p] is [os.path.basename(p)], [suffix_lower p] is
    [Path(p).suffix.lower()], and [joinpath d n] is [str(Path(d) / n)]. *)
Class OsPath := {
  basename : string → string;
  suffix_lower : string → string;
  joinpath : string → string → string
}.

(** ** Outcomes and the effect monad *)

Inductive outcome (A : Type) : Type :=
| Ok (a : A)
| Raise (e : string)
| Hang.
Arguments Ok {A} a.
Arguments Raise {A} e.
Arguments Hang {A}.

(** What [to_soundarray] returns: a one-dimensional array of samples or a
    frames-by-channels matrix. *)
Inductive ndarray (F : Type) : Type :=
| Array1 (samples : list F)
| Array2 (frames : list (list F)).
Arguments Array1 {F} samples.
Arguments Array2 {F} frames.

(** An opened video clip: [video_audio] is [None] when the container has no
    audio track, otherwise [to_soundarray] as a function of [fps]. *)
Record VideoFileClip (F : Type) := {
  video_audio : option (Z → outcome (ndarray F))
}.
Arguments video_audio {F} v.

Record World (F : Type) := {
  open_video : string → outcome (VideoFileClip F);
  librosa_load : string → Z → outcome (list F * Z);
  datetime_now_isoformat : nat → string
}.
Arguments open_video {F} w path.
Arguments librosa_load {F} w path sr.
Arguments datetime_now_isoformat {F} w tick.

Inductive event (F : Type) : Type :=
| EvPrint (msg : string)
| EvDecode (path : string)
| EvMkdir (path : string)
| EvSfWrite (path : string) (data : list F) (sr : Z).
Arguments EvPrint {F} msg.
Arguments EvDecode {F} path.
Arguments EvMkdir {F} path.
Arguments EvSfWrite {F} path data sr.

(** One Processed-File Record (the dict stored in [self.processed_files]). *)
Record ProcessedFileRecord := {
  full_path : string;
  processed_datetime : string;
  processed_filenames : list string
}.

(** The attributes of the processor that never change after [__init__]. *)
Record AudioDataProcessor := {
  target_sr : Z;
  target_samples : Z;
  gap_samples : Z;
  calibration_samples : Z;
  eval_samples : Z;
  previously_processed_files : gset string
}.

(** The mutable part: [self.processed_files], the two attributes that
    [create_dataset_splits] resets, the events so far and the number of
    clock readings so far. *)
Record state (F : Type) := {
  processed_files : gmap string ProcessedFileRecord;
  segment_stats : list string;
  processed_segments : gset string;
  events : list (event F);
  clock : nat
}.
Arguments processed_files {F} s.
Arguments segment_stats {F} s.
Arguments processed_segments {F} s.
Arguments events {F} s.
Arguments clock {F} s.

Definition IO (F A : Type) : Type := state F → outcome A * state F.

Definition ret {F A} (a : A) : IO F A := λ st, (Ok a, st).

Definition raise {F A} (e : string) : IO F A := λ st, (Raise e, st).

Definition bind {F A B} (m : IO F A) (k : A → IO F B) : IO F B :=
  λ st,
    match m st with
    | (Ok a, st') => k a st'
    | (Raise e, st') => (Raise e, st')
    | (Hang, st') => (Hang, st')
    end.

(** [try: m  except Exception as e: h e]. A loop that never ends is not an
    exception. *)
Definition try_except {F A} (m : IO F A) (h : string → IO F A) : IO F A :=
  λ st,
    match m st with
    | (Raise e, st') => h e st'
    | r => r
    end.

Definition lift {F A} (o : outcome A) : IO F A := λ st, (o, st).

(** The state after the events [evs] have happened. *)
Definition add_events {F} (st : state F) (evs : list (event F)) : state F :=
  {| processed_files := processed_files st;
     segment_stats := segment_stats st;
     processed_segments := processed_segments st;
     events := events st ++ evs;
     clock := clock st |}.

Definition emit {F} (ev : event F) : IO F unit :=
  λ st, (Ok tt, add_events st [ev]).

Definition print {F} (msg : string) : IO F unit := emit (EvPrint msg).

Declare Scope io_scope.
Delimit Scope io_scope with io.
Notation "'let*' x ':=' m 'in' k" := (bind m (λ x, k))
  (at level 10, x pattern, m at level 100, k at level 200) : io_scope.
Notation "m ';;' k" := (bind m (λ _, k))
  (at level 100, k at level 200, right associativity) : io_scope.
Open Scope io_scope.

(** ** The processor *)

Section Processor.
Context {F : Type} `{NumPy F} `{OsPath}.
Variable w : World F.
Variable self : AudioDataProcessor.

(** [np.sqrt(np.mean(x**2))] *)
Definition rms_energy (x : list F) : F :=
  np_sqrt (np_mean (map np_square x)).

(** The downmix of [load_audio_file]:
    [if len(a.shape) > 1: a = np.mean(a, axis=1)]. *)
Definition to_mono (a : ndarray F) : list F :=
  match a with
  | Array1 samples => samples
  | Array2 frames => map np_mean frames
  end.

(** *** Audio Loader *)

Definition load_audio_file (file_path : string) : IO F (option (list F) * Z) :=
  try_except
    (let file_ext := suffix_lower file_path in
     emit (EvDecode file_path) ;;
     if String.eqb file_ext ".mp4" then
       let* video := lift (open_video w file_path) in
       match video_audio video with
       | None =>
           print ("No audio stream in " +:+ file_path) ;;
           ret (None, 0%Z)
       | Some to_soundarray =>
           let* audio_array := lift (to_soundarray (target_sr self)) in
           ret (Some (to_mono audio_array), target_sr self)
       end
     else
       let* (y, sr) := lift (librosa_load w file_path (target_sr self)) in
       ret (Some y, sr))
    (λ e,
       print ("Error loading " +:+ file_path +:+ ": " +:+ e) ;;
       raise e).

(** *** Segmenter *)

(** The [while] loop of [load_and_process_audio]; [None] when [fuel]
    iterations were not enough to leave it. *)
Fixpoint sequential_windows (fuel : nat) (audio : list F) (sr : Z)
    (current_pos : Z) (segments : list (list F * Z))
    : option (list (list F * Z)) :=
  match fuel with
  | O => None
  | S fuel' =>
      if (current_pos + target_samples self <=? Z.of_nat (length audio))%Z then
        let segment :=
          Py.slice audio current_pos (current_pos + target_samples self) in
        let energy := rms_energy segment in
        let segments' :=
          if np_ge energy energy_floor then segments ++ [(segment, sr)]
          else segments in
        sequential_windows fuel' audio sr
          (current_pos + target_samples self + gap_samples self)%Z segments'
      else Some segments
  end.

(** Iterations after which the loop has ended if it ever ends (see
    [sequential_windows_fuel] and [sequential_windows_hang]). *)
Definition enough_fuel (audio : list F) : nat :=
  S (S (Z.to_nat (Z.of_nat (length audio) - target_samples self))).

Definition load_and_process_audio (file_path set_type : string)
    : IO F (list (list F * Z)) :=
  try_except
    (let* (loaded, sr) := load_audio_file file_path in
     match loaded with
     | None => ret []
     | Some audio =>
         if (Z.of_nat (length audio) <? target_samples self)%Z then
           let energy := rms_energy audio in
           if np_ge energy energy_floor then ret [(audio, sr)]
           else
             print ("Skipping " +:+ file_path
                      +:+ ": insufficient energy in short clip") ;;
             ret []
         else
           let audio := librosa_normalize audio in
           let mean := np_mean audio in
           let audio := map (λ x, np_sub x mean) audio in
           match sequential_windows (enough_fuel audio) audio sr 0%Z [] with
           | Some segments => ret segments
           | None => lift Hang
           end
     end)
    (λ e,
       print ("Error processing " +:+ file_path +:+ ": " +:+ e) ;;
       raise e).

(** *** Vocabulary for the segmenter's window loop *)

(** The energy test applied to a whole short clip and to every window. *)
Definition energy_ok (segment : list F) : bool :=
  np_ge (rms_energy segment) energy_floor.

(** The window the loop cuts at offset [pos]. *)
Definition window_at (audio : list F) (pos : Z) : list F :=
  Py.slice audio pos (pos + target_samples self).

(** Offsets [pos], [pos + stride], ... ([n] of them), the stride being
    [target_samples + gap_samples]. *)
Definition offsets_from (pos : Z) (n : nat) : list Z :=
  map (λ k, (pos + Z.of_nat k * (target_samples self + gap_samples self))%Z)
    (seq 0 n).

(** Windows still to be attempted when the loop is at [pos] in a buffer
    of [L] samples. *)
Definition remaining (L pos : Z) : nat :=
  if (pos + target_samples self <=? L)%Z then
    Z.to_nat
      ((L - target_samples self - pos)
         / (target_samples self + gap_samples self) + 1)
  else 0.

(** The segments kept out of a list of window offsets. *)
Definition kept (audio : list F) (sr : Z) (starts : list Z)
    : list (list F * Z) :=
  map (λ segment, (segment, sr))
    (List.filter energy_ok (map (window_at audio) starts)).

(** The buffer as the window loop sees it: peak-normalized, then with its
    mean subtracted. *)
Definition preprocess (audio : list F) : list F :=
  let audio := librosa_normalize audio in
  let mean := np_mean audio in
  map (λ x, np_sub x mean) audio.

(** *** Domain Batcher *)

Definition target_count (set_type : string) : Z :=
  if String.eqb set_type "calibration" then calibration_samples self
  else eval_samples self.

(** [f"{domain}_{index:04d}.wav"] *)
Definition wav_name (domain : string) (index : nat) : string :=
  domain +:+ "_" +:+ Py.format_04d index +:+ ".wav".

(** [sf.write(output_file, segment, sr)] when it succeeds; the write that
    may raise is [WriteFaults.sf_write]. *)
Definition sf_write (output_file : string) (segment : list F) (sr : Z)
    : IO F unit :=
  emit (EvSfWrite output_file segment sr).

Definition get_processed_files : IO F (gmap string ProcessedFileRecord) :=
  λ st, (Ok (processed_files st), st).

(** [self.processed_files[filename] = r] *)
Definition set_processed_file (filename : string) (r : ProcessedFileRecord)
    : IO F unit :=
  λ st,
    (Ok tt,
     {| processed_files := <[filename := r]> (processed_files st);
        segment_stats := segment_stats st;
        processed_segments := processed_segments st;
        events := events st;
        clock := clock st |}).

(** [datetime.datetime.now().isoformat()] *)
Definition datetime_now : IO F string :=
  λ st,
    (Ok (datetime_now_isoformat w (clock st)),
     {| processed_files := processed_files st;
        segment_stats := segment_stats st;
        processed_segments := processed_segments st;
        events := events st;
        clock := S (clock st) |}).

(** The inner [for] loop over the segments of one file. [names] is
    [processed_filenames_for_file] and [written] is the local list
    [processed_files] of [process_domain_files]; both are returned as the
    loop leaves them. *)
Fixpoint save_segments (out_path domain set_type : string)
    (segments : list (list F * Z)) (names written : list string)
    : IO F (list string * list string) :=
  match segments with
  | [] => ret (names, written)
  | (segment, sr) :: rest =>
      if (target_count set_type <=? Z.of_nat (length written))%Z then
        ret (names, written)
      else
        let processed_filename := wav_name domain (length written) in
        let output_file := joinpath out_path processed_filename in
        sf_write output_file segment sr ;;
        save_segments out_path domain set_type rest
          (names ++ [processed_filename]) (written ++ [output_file])
  end.

(** One pass of the outer [for] loop body that can raise: load, segment,
    save, record. *)
Definition process_one_file (out_path domain set_type file_path : string)
    (written : list string) : IO F (list string) :=
  try_except
    (let* segments := load_and_process_audio file_path set_type in
     let* (names, written') :=
       save_segments out_path domain set_type segments [] written in
     let* now := datetime_now in
     set_processed_file (basename file_path)
       {| full_path := file_path;
          processed_datetime := now;
          processed_filenames := names |} ;;
     ret written')
    (λ e,
       print ("Error processing " +:+ file_path +:+ ": " +:+ e) ;;
       ret written).

(** The outer [for] loop over the candidate files; [written] is the local
    list [processed_files]. The two [continue]s and the [break] are the
    first three tests. *)
Fixpoint process_files (out_path domain set_type : string)
    (files : list string) (written : list string) : IO F (list string) :=
  match files with
  | [] => ret written
  | file_path :: rest =>
      let filename := basename file_path in
      if decide (filename ∈ previously_processed_files self) then
        process_files out_path domain set_type rest written
      else if (target_count set_type <=? Z.of_nat (length written))%Z then
        ret written
      else
        let* recorded := get_processed_files in
        if decide (filename ∈ dom recorded) then
          process_files out_path domain set_type rest written
        else
          let* written' :=
            process_one_file out_path domain set_type file_path written in
          process_files out_path domain set_type rest written'
  end.

Definition process_domain_files (files : list string)
    (output_dir domain set_type : string) : IO F (gmap string (list string)) :=
  let out_path := joinpath (joinpath output_dir set_type) domain in
  emit (EvMkdir out_path) ;;
  let* written := process_files out_path domain set_type files [] in
  ret {[ (domain +:+ "_" +:+ set_type)%string := written ]}.

(** *** Dataset Assembler *)

(** [self.segment_stats = []] *)
Definition reset_segment_stats : IO F unit :=
  λ st,
    (Ok tt,
     {| processed_files := processed_files st;
        segment_stats := [];
        processed_segments := processed_segments st;
        events := events st;
        clock := clock st |}).

(** [self.processed_segments = set()] *)
Definition reset_processed_segments : IO F unit :=
  λ st,
    (Ok tt,
     {| processed_files := processed_files st;
        segment_stats := segment_stats st;
        processed_segments := ∅;
        events := events st;
        clock := clock st |}).

(** One of the two [for domain, files in [...]] loops;
    [dataset_splits.update(split_files)] lets the new entry win. *)
Fixpoint process_domains (output_dir set_type : string)
    (domains : list (string * list string))
    (dataset_splits : gmap string (list string))
    : IO F (gmap string (list string)) :=
  match domains with
  | [] => ret dataset_splits
  | (domain, files) :: rest =>
      let* split_files :=
        process_domain_files files output_dir domain set_type in
      process_domains output_dir set_type rest (split_files ∪ dataset_splits)
  end.

Definition create_dataset_splits
    (speech_files music_files env_files : list string) (output_dir : string)
    : IO F (gmap string (list string)) :=
  let domains :=
    [("speech", speech_files); ("music", music_files);
     ("environmental", env_files)] in
  reset_segment_stats ;;
  reset_processed_segments ;;
  let* dataset_splits := process_domains output_dir "calibration" domains ∅ in
  reset_segment_stats ;;
  process_domains output_dir "evaluation" domains dataset_splits.

(** *** Outcomes and logs, read off the world

    The decoders and the clock are the only things the processor reads
    from outside, so what a file loads and segments to does not depend on
    the state. The definitions below name these outcomes; the lemmas
    [load_audio_file_run], [load_and_process_audio_run] and
    [process_one_file_run] show that the code computes them. *)

(** What [load_audio_file] returns or raises for [file_path]. *)
Definition decode (file_path : string) : outcome (option (list F) * Z) :=
  if String.eqb (suffix_lower file_path) ".mp4" then
    match open_video w file_path with
    | Ok video =>
        match video_audio video with
        | None => Ok (None, 0%Z)
        | Some to_soundarray =>
            match to_soundarray (target_sr self) with
            | Ok audio_array => Ok (Some (to_mono audio_array), target_sr self)
            | Raise e => Raise e
            | Hang => Hang
            end
        end
    | Raise e => Raise e
    | Hang => Hang
    end
  else
    match librosa_load w file_path (target_sr self) with
    | Ok (y, sr) => Ok (Some y, sr)
    | Raise e => Raise e
    | Hang => Hang
    end.

(** What [load_audio_file] prints for [file_path]. *)
Definition decode_prints (file_path : string) : list string :=
  match decode file_path with
  | Ok (None, _) => ["No audio stream in " +:+ file_path]
  | Ok (Some _, _) => []
  | Raise e => ["Error loading " +:+ file_path +:+ ": " +:+ e]
  | Hang => []
  end.

(** The segments of a loaded buffer. *)
Definition segment_buffer (audio : list F) (sr : Z)
    : outcome (list (list F * Z)) :=
  if (Z.of_nat (length audio) <? target_samples self)%Z then
    if energy_ok audio then Ok [(audio, sr)] else Ok []
  else
    match
      sequential_windows (enough_fuel (preprocess audio)) (preprocess audio)
        sr 0%Z []
    with
    | Some segments => Ok segments
    | None => Hang
    end.

(** What [load_and_process_audio] returns or raises for [file_path]. *)
Definition process_audio (file_path : string) : outcome (list (list F * Z)) :=
  match decode file_path with
  | Ok (None, _) => Ok []
  | Ok (Some audio, sr) => segment_buffer audio sr
  | Raise e => Raise e
  | Hang => Hang
  end.

(** What [load_and_process_audio] prints for [file_path], the loader's
    prints included. *)
Definition process_audio_prints (file_path : string) : list string :=
  decode_prints file_path
  ++ match decode file_path with
     | Ok (Some audio, _) =>
         if (Z.of_nat (length audio) <? target_samples self)%Z
            && negb (energy_ok audio)
         then ["Skipping " +:+ file_path
                 +:+ ": insufficient energy in short clip"]
         else []
     | Ok (None, _) => []
     | Raise e => ["Error processing " +:+ file_path +:+ ": " +:+ e]
     | Hang => []
     end.

(** Everything [load_and_process_audio] does to the outside. *)
Definition process_audio_events (file_path : string) : list (event F) :=
  EvDecode file_path :: map EvPrint (process_audio_prints file_path).

(** Segments the inner loop can still save before the quota is met. *)
Definition room (set_type : string) (written : list string) : nat :=
  Z.to_nat (target_count set_type - Z.of_nat (length written)).

(** Output paths numbered [start], [start + 1], ... ([k] of them). *)
Definition wav_paths (out_path domain : string) (start k : nat) : list string :=
  map (λ i, joinpath out_path (wav_name domain i)) (seq start k).

(** The [sf.write] calls that save [segments] under consecutive numbers. *)
Fixpoint write_events (out_path domain : string) (start : nat)
    (segments : list (list F * Z)) : list (event F) :=
  match segments with
  | [] => []
  | (segment, sr) :: rest =>
      EvSfWrite (joinpath out_path (wav_name domain start)) segment sr
      :: write_events out_path domain (S start) rest
  end.

(** The state after [self.processed_files[filename] = r] with a fresh
    timestamp. *)
Definition record_file (file_path : string) (names : list string)
    (st : state F) : state F :=
  {| processed_files :=
       <[basename file_path :=
           {| full_path := file_path;
              processed_datetime := datetime_now_isoformat w (clock st);
              processed_filenames := names |}]> (processed_files st);
     segment_stats := segment_stats st;
     processed_segments := processed_segments st;
     events := events st;
     clock := S (clock st) |}.

(** Output paths of the [sf.write] events of a trace, in order. *)
Definition written_paths (tr : list (event F)) : list string :=
  omap (λ ev, match ev with EvSfWrite path _ _ => Some path | _ => None end) tr.

(** Paths of the files a trace starts to decode, in order. *)
Definition decoded_paths (tr : list (event F)) : list string :=
  omap (λ ev, match ev with EvDecode path => Some path | _ => None end) tr.

(** Number of [mkdir] events of a trace. Every call of
    [process_domain_files] makes exactly one, before anything else. *)
Fixpoint mkdirs (tr : list (event F)) : nat :=
  match tr with
  | [] => 0
  | EvMkdir _ :: tr' => S (mkdirs tr')
  | _ :: tr' => mkdirs tr'
  end.

(** For every [sf.write] of a trace, in order: the number of the
    [process_domain_files] call it belongs to (the count of [mkdir]s up to
    it, starting from [call]) and its source, the file decoded last before
    it ([cur] at the start of the trace). *)
Fixpoint contributions (call : nat) (cur : option string)
    (tr : list (event F)) : list (nat * option string) :=
  match tr with
  | [] => []
  | EvMkdir _ :: tr' => contributions (S call) cur tr'
  | EvDecode path :: tr' => contributions call (Some path) tr'
  | EvSfWrite _ _ _ :: tr' => (call, cur) :: contributions call cur tr'
  | EvPrint _ :: tr' => contributions call cur tr'
  end.

(** What a terminated computation added to the trace of [st]. *)
Definition new_events {A} (st : state F) (r : outcome A * state F)
    : list (event F) :=
  drop (length (events st)) (events (snd r)).

(** The directory of a bucket: [Path(output_dir) / set_type / domain]. *)
Definition bucket_path (output_dir domain set_type : string) : string :=
  joinpath (joinpath output_dir set_type) domain.

(** The key of a bucket in the manifest: [f"{domain}_{set_type}"]. *)
Definition bucket_key (domain set_type : string) : string :=
  domain +:+ "_" +:+ set_type.

(** Directories made by a trace, in order. *)
Definition mkdir_paths (tr : list (event F)) : list string :=
  omap (λ ev, match ev with EvMkdir path => Some path | _ => None end) tr.

(** What the outer loop, started with the list [written] in state [st],
    guarantees about its result [r]: the events [tr] it adds write the [n]
    next numbers, within the room the quota leaves; it never raises; it makes
    no directory; records are only added; every write comes from a file that
    had no record before and has one after; every file decoded is a candidate
    that was neither processed before nor recorded; and every new record
    belongs to a candidate that was not processed before and that loaded and
    segmented without an exception. *)
Definition batch_post (out_path domain set_type : string)
    (files written : list string) (st : state F)
    (r : outcome (list string) * state F) : Prop :=
  ∃ tr n,
    events (snd r) = events st ++ tr
    ∧ written_paths tr = wav_paths out_path domain (length written) n
    ∧ n ≤ room set_type written
    ∧ (∀ l, fst r = Ok l →
         l = written ++ wav_paths out_path domain (length written) n)
    ∧ (∀ e, fst r ≠ Raise e)
    ∧ mkdirs tr = 0
    ∧ processed_files st ⊆ processed_files (snd r)
    ∧ (∀ call cur x, x ∈ contributions call cur tr →
         ∃ p, x = (call, Some p)
              ∧ (basename p ∉ dom (processed_files st))
              ∧ basename p ∈ dom (processed_files (snd r)))
    ∧ (∀ p, p ∈ decoded_paths tr →
         p ∈ files
         ∧ (basename p ∉ previously_processed_files self)
         ∧ (basename p ∉ dom (processed_files st)))
    ∧ (∀ key rec, processed_files (snd r) !! key = Some rec →
         processed_files st !! key = Some rec
         ∨ (key = basename (full_path rec)
            ∧ (key ∉ previously_processed_files self)
            ∧ full_path rec ∈ files
            ∧ ∃ segments, process_audio (full_path rec) = Ok segments)).

(** What holds of the state [st] reached from [st0] in a run of the
    assembler, [tr] being the events since [st0]: the source of every write
    is a file that has a record by now, and no file is the source of writes
    in two different calls of [process_domain_files]. *)
Definition run_inv (st0 st : state F) : Prop :=
  ∃ tr,
    events st = events st0 ++ tr
    ∧ (∀ i src, (i, src) ∈ contributions 0 None tr →
         ∃ p, src = Some p ∧ basename p ∈ dom (processed_files st))
    ∧ (∀ i j p, (i, Some p) ∈ contributions 0 None tr →
         (j, Some p) ∈ contributions 0 None tr → i = j).

End Processor.

(** The state of a processor right after [__init__]. *)
Definition initial_state (F : Type) : state F :=
  {| processed_files := ∅;
     segment_stats := [];
     processed_segments := ∅;
     events := [];
     clock := 0 |}.

(** ** Concrete instances, for running the model *)

(** IEEE binary64 samples. [np_mean] adds from left to right (what NumPy does
    on short arrays); [librosa_normalize] divides by the peak magnitude, or by
    one when the peak is below the smallest normal number. *)
Module Float64.

Definition of_nat (n : nat) : float :=
  PrimFloat.of_uint63 (Uint63.of_Z (Z.of_nat n)).

Definition sum (a : list float) : float :=
  fold_left PrimFloat.add a 0%float.

Definition mean (a : list float) : float :=
  PrimFloat.div (sum a) (of_nat (length a)).

Definition peak (a : list float) : float :=
  fold_left
    (λ m x, if PrimFloat.ltb m (PrimFloat.abs x) then PrimFloat.abs x else m)
    a 0%float.

Definition tiny : float := 0x1p-1022%float.

Definition normalize (a : list float) : list float :=
  let length := peak a in
  let length := if PrimFloat.ltb length tiny then 1%float else length in
  map (λ x, PrimFloat.div x length) a.

#[export] Program Instance numpy : NumPy float := {|
  np_mean := mean;
  np_sqrt := PrimFloat.sqrt;
  np_square := λ x, PrimFloat.mul x x;
  np_sub := PrimFloat.sub;
  np_ge := λ x y, PrimFloat.leb y x;
  energy_floor := 0x1.47ae147ae147bp-7%float;
  librosa_normalize := normalize
|}.
Next Obligation. intros a. unfold normalize. apply length_map. Qed.

End Float64.

(** POSIX paths, as far as the examples need them. *)
Module Posix.

(** [split_last c s = Some (a, b)] when [s] is [a], then [c], then [b],
    and [c] does not occur in [b]. *)
Fixpoint split_last (c : ascii) (s : string) : option (string * string) :=
  match s with
  | EmptyString => None
  | String x s' =>
      match split_last c s' with
      | Some (a, b) => Some (String x a, b)
      | None => if Ascii.eqb x c then Some (EmptyString, s') else None
      end
  end.

Definition base (p : string) : string :=
  match split_last "/" p with
  | Some (_, b) => b
  | None => p
  end.

Definition lower_char (c : ascii) : ascii :=
  let n := nat_of_ascii c in
  if (65 <=? n)%nat && (n <=? 90)%nat then ascii_of_nat (n + 32) else c.

Fixpoint lower (s : string) : string :=
  match s with
  | EmptyString => EmptyString
  | String c s' => String (lower_char c) (lower s')
  end.

Definition suffix (p : string) : string :=
  match split_last "." (base p) with
  | Some (String _ _, String c b) => String "." (String c b)
  | _ => EmptyString
  end.

Definition join (d n : string) : string := d +:+ "/" +:+ n.

#[export] Instance os_path : OsPath := {|
  basename := base;
  suffix_lower := λ p, lower (suffix p);
  joinpath := join
|}.

End Posix.

(** ** Scenarios *)

(** A small world on IEEE floats and POSIX paths: windows of 4 samples with
    a gap of 2, calibration quota 2, evaluation quota 3. *)
Module Scenario.
Import Float64 Posix.

Definition config : AudioDataProcessor :=
  {| target_sr := 4;
     target_samples := 4;
     gap_samples := 2;
     calibration_samples := 2;
     eval_samples := 3;
     previously_processed_files := {[ "old.wav"%string ]} |}.

Definition loud : list float := [0.5; 0.5]%float.

Definition quiet : list float := [0x1p-10; 0x1p-10]%float.

(** Eleven samples: two windows fit (offsets 0 and 6); the second one is
    silent. *)
Definition long : list float :=
  [0.5; -0.5; 0.5; -0.5; 0; 0; 0; 0; 0; 0; 0]%float.

Definition world : World float :=
  {| open_video := λ path,
       if String.eqb path "in/mute.mp4" then Ok {| video_audio := None |}
       else Raise "moov atom not found";
     librosa_load := λ path sr,
       if String.eqb path "in/bad.wav" then Raise "unknown format"
       else if String.eqb path "in/quiet.wav" then Ok (quiet, sr)
       else if String.eqb path "in/long.wav" then Ok (long, sr)
       else Ok (loud, sr);
     datetime_now_isoformat := λ tick, "T" +:+ Py.str_of_nat tick |}.

(** The processor as [main] configures it (the defaults of [__init__]):
    44100 Hz, 10 s windows, 2 s gaps, quotas 300 and 1000. *)
Definition default_config : AudioDataProcessor :=
  {| target_sr := 44100;
     target_samples := 441000;
     gap_samples := 88200;
     calibration_samples := 300;
     eval_samples := 1000;
     previously_processed_files := ∅ |}.

Definition three_files : list string :=
  ["in/a.wav"; "in/b.wav"; "in/c.wav"]%string.

End Scenario.

(** ** The constructor, [AudioDataProcessor.__init__] *)

Module Init.

(** [float(n)] for an integer: the nearest binary64, ties to even;
    [OverflowError] beyond the largest float. *)
Definition float_of_int (n : Z) : outcome float :=
  match binary_normalize prec emax n 0 false with
  | S754_infinity _ => Raise "int too large to convert to float"
  | sf => Ok (SF2Prim sf)
  end.

(** [int(x)] for a float: truncation towards zero; [ValueError] on NaN and
    [OverflowError] on an infinity. *)
Definition int_of_float (x : float) : outcome Z :=
  match Prim2SF x with
  | S754_nan => Raise "cannot convert float NaN to integer"
  | S754_infinity _ => Raise "cannot convert float infinity to integer"
  | S754_zero _ => Ok 0%Z
  | S754_finite s m e =>
      let magnitude := Z.shiftl (Zpos m) e in
      Ok (if s then (- magnitude)%Z else magnitude)
  end.

(** [int(n * x)] for an integer [n] and a float [x]. *)
Definition int_of_product (n : Z) (x : float) : outcome Z :=
  match float_of_int n with
  | Ok f => int_of_float (PrimFloat.mul f x)
  | Raise e => Raise e
  | Hang => Hang
  end.

(** [AudioDataProcessor(target_sr, target_duration, calibration_samples,
    eval_samples, gap_duration, previously_processed_files)]. The attribute
    [target_duration] is stored by the code and never read again; the
    attribute [processed_files] starts empty (see [new_processor]). *)
Definition init (target_sr : Z) (target_duration : float)
    (calibration_samples eval_samples : Z) (gap_duration : float)
    (previously_processed_files : gset string) : outcome AudioDataProcessor :=
  match int_of_product target_sr target_duration with
  | Ok target_samples =>
      match int_of_product target_sr gap_duration with
      | Ok gap_samples =>
          Ok {| target_sr := target_sr;
                target_samples := target_samples;
                gap_samples := gap_samples;
                calibration_samples := calibration_samples;
                eval_samples := eval_samples;
                previously_processed_files := previously_processed_files |}
      | Raise e => Raise e
      | Hang => Hang
      end
  | Raise e => Raise e
  | Hang => Hang
  end.

End Init.

(** ** The statistics script, [helper.py] *)

Module Helper.

(** [needle in s] for two strings. *)
Fixpoint contains (needle s : string) : bool :=
  if String.prefix needle s then true
  else
    match s with
    | EmptyString => false
    | String _ s' => contains needle s'
    end.

(** [set_counts[key] += 1] on a [defaultdict(int)]: a missing key counts
    as zero. *)
Definition increment (key : string) (set_counts : gmap string nat)
    : gmap string nat :=
  <[key := S (default 0 (set_counts !! key))]> set_counts.

(** The body of the loop over [sources["processed_files"].items()]. *)
Definition count_file (set_counts : gmap string nat)
    (item : string * ProcessedFileRecord) : gmap string nat :=
  let info := snd item in
  if negb (length (processed_filenames info) =? 0) then
    if contains "music" (full_path info) then increment "music" set_counts
    else if contains "environmental" (full_path info) then
      increment "environmental" set_counts
    else increment "speech" set_counts
  else set_counts.

(** [set_counts] after the loop, the items taken in the order of the
    ledger. *)
Definition set_counts (items : list (string * ProcessedFileRecord))
    : gmap string nat :=
  fold_left count_file items ∅.

(** The set a counted file goes to, read off its path. *)
Definition set_of_path (path : string) : string :=
  if contains "music" path then "music"
  else if contains "environmental" path then "environmental"
  else "speech".

(** Items with at least one output file whose path puts them in set [key]. *)
Definition files_in_set (key : string)
    (items : list (string * ProcessedFileRecord))
    : list (string * ProcessedFileRecord) :=
  List.filter
    (λ item,
       negb (length (processed_filenames (snd item)) =? 0)
       && String.eqb (set_of_path (full_path (snd item))) key)
    items.

End Helper.

(** ** The entry point, [data_processing.py] *)

(** The ledger file [data_sources.json]: the directories of each domain and
    the records of the files processed so far ([sources["processed_files"]],
    keyed by basename). *)
Record Sources := {
  data_directories : gmap string (list string);
  ledger : gmap string ProcessedFileRecord
}.

(** What the script reads from the file system: [os.path.exists] and
    [Path(directory).rglob(pattern)], the paths as strings. *)
Record FileSystem := {
  path_exists : string → bool;
  rglob : string → string → list string
}.

(** The two files [main] writes: [dataset_splits.json] in the output
    directory and [data_sources.json]. *)
Record MainOutput := {
  dataset_splits_json : gmap string (list string);
  data_sources_json : Sources
}.

Definition ROOT_DIR : string :=
  "C:/Users/hranw/Dropbox (MIT)/6.5940 Audio Codecs Project/datasets".

Definition OUTPUT_DIR : string := ROOT_DIR +:+ "/processed".

Definition AUDIO_EXTENSIONS : list string := ["wav"; "mp3"; "flac"; "mp4"].

(** The keys of [dataset_splits] in the order in which
    [create_dataset_splits] inserts them, which is the order of
    [dataset_splits.items()]. *)
Definition split_names : list string :=
  ["speech_calibration"; "music_calibration"; "environmental_calibration";
   "speech_evaluation"; "music_evaluation"; "environmental_evaluation"].

Section Main.
Context {F : Type} `{NumPy F} `{OsPath}.
Variable fs : FileSystem.
Variable w : World F.

Definition collect_files (directory : string) (extensions : list string)
    : list string :=
  concat (map (λ ext, rglob fs directory ("*." +:+ ext)) extensions).

(** One of the three loops of [main] that collect the candidates of a
    domain: for every directory that exists, the files found that are not
    keys of [sources["processed_files"]]. *)
Definition collect_new_files (sources : Sources) (directories : list string)
    : list string :=
  concat
    (map
       (λ directory,
          if path_exists fs directory then
            filter (λ f, f ∉ dom (ledger sources))
              (collect_files directory AUDIO_EXTENSIONS)
          else [])
       directories).

(** A processor fresh from [__init__]: [self.processed_files = {}]. *)
Definition new_processor : IO F unit :=
  λ st,
    (Ok tt,
     {| processed_files := ∅;
        segment_stats := [];
        processed_segments := ∅;
        events := events st;
        clock := clock st |}).

(** The loop printing [f"{split_name}: {len(files)} files"]. *)
Fixpoint print_statistics (names : list string)
    (dataset_splits : gmap string (list string)) : IO F unit :=
  match names with
  | [] => ret tt
  | split_name :: rest =>
      match dataset_splits !! split_name with
      | Some files =>
          print (split_name +:+ ": " +:+ Py.str_of_nat (length files)
                   +:+ " files") ;;
          print_statistics rest dataset_splits
      | None => print_statistics rest dataset_splits
      end
  end.

Definition main (sources : Sources) : IO F MainOutput :=
  let SPEECH_DIRS := default [] (data_directories sources !! "speech"%string) in
  let MUSIC_DIRS := default [] (data_directories sources !! "music"%string) in
  let ENV_DIRS :=
    default [] (data_directories sources !! "environmental"%string) in
  let speech_files := collect_new_files sources SPEECH_DIRS in
  let music_files := collect_new_files sources MUSIC_DIRS in
  let env_files := collect_new_files sources ENV_DIRS in
  let previously_processed_files := dom (ledger sources) in
  let* processor :=
    lift (Init.init 44100 10 300 1000 2 previously_processed_files) in
  new_processor ;;
  let* dataset_splits :=
    create_dataset_splits w processor speech_files music_files env_files
      OUTPUT_DIR in
  print (String "010"%char "Dataset Statistics:") ;;
  print_statistics split_names dataset_splits ;;
  let* recorded := get_processed_files in
  ret {| dataset_splits_json := dataset_splits;
         data_sources_json :=
           {| data_directories := data_directories sources;
              ledger := recorded ∪ ledger sources |} |}.

End Main.

(** The processor [main] constructs (lemma [init_main]): 44100 Hz, windows
    of 441000 samples, gaps of 88200, quotas 300 and 1000, and the keys of
    the ledger as previously-processed set. *)
Definition main_processor (sources : Sources) : AudioDataProcessor :=
  {| target_sr := 44100;
     target_samples := 441000;
     gap_samples := 88200;
     calibration_samples := 300;
     eval_samples := 1000;
     previously_processed_files := dom (ledger sources) |}.

(** ** More scenarios *)

Module Scenario2.
Import Float64 Posix.

(** Ten loud samples: with windows of 4 and a gap of 2, two windows fit
    (offsets 0 and 6) and both are kept. *)
Definition two_windows : list float :=
  [0.5; -0.5; 0.5; -0.5; 0.5; -0.5; 0.5; -0.5; 0.5; -0.5]%float.

(** [Scenario.world] with one more file. *)
Definition world : World float :=
  {| open_video := open_video Scenario.world;
     librosa_load := λ path sr,
       if String.eqb path "in/two.wav" then Ok (two_windows, sr)
       else librosa_load Scenario.world path sr;
     datetime_now_isoformat := datetime_now_isoformat Scenario.world |}.

(** A configuration whose gap cancels the window: the stride is zero. *)
Definition config_stride_0 : AudioDataProcessor :=
  {| target_sr := 4;
     target_samples := 4;
     gap_samples := -4;
     calibration_samples := 2;
     eval_samples := 3;
     previously_processed_files := ∅ |}.

(** A configuration that asks for no calibration file. *)
Definition config_quota_0 : AudioDataProcessor :=
  {| target_sr := 4;
     target_samples := 4;
     gap_samples := 2;
     calibration_samples := 0;
     eval_samples := 3;
     previously_processed_files := ∅ |}.

(** A file system with one directory of three files, and a ledger that
    lists the directory (and one that does not exist) for speech and has
    one entry, for a file [old.wav] processed from another place. *)
Definition fs : FileSystem :=
  {| path_exists := λ directory, String.eqb directory "in";
     rglob := λ directory pattern,
       if String.eqb directory "in" && String.eqb pattern "*.wav" then
         ["in/a.wav"; "in/old.wav"; "in/bad.wav"]%string
       else [] |}.

Definition old_record : ProcessedFileRecord :=
  {| full_path := "archive/old.wav";
     processed_datetime := "2024-11-30T10:00:00";
     processed_filenames := ["speech_0000.wav"%string] |}.

Definition sources : Sources :=
  {| data_directories := {[ "speech"%string := ["in"; "missing"]%string ]};
     ledger := {[ "old.wav"%string := old_record ]} |}.

End Scenario2.

(** ** Writes that can fail

    [sf.write] stands inside the [try] of the loop body of
    [process_domain_files], so an exception it raises ends the work on the
    file: the outputs written from the file so far stay in the local list
    (they were appended one by one), the record of the file is not created,
    the error is printed and the loop goes on. The definitions of this
    module are the batcher and the assembler with such writes; they bear
    the names of the source. [sf_write_error] tells what a write raises, if
    anything; a write that raises leaves no [EvSfWrite] event. The
    definitions above are these ones when no write raises (lemmas
    [save_segments_no_fault] to [create_dataset_splits_no_fault]). *)

Module WriteFaults.

Section Batcher.
Context {F : Type} `{NumPy F} `{OsPath}.
Variable sf_write_error : string → list F → Z → option string.
Variable w : World F.
Variable self : AudioDataProcessor.

(** [sf.write(output_file, segment, sr)] *)
Definition sf_write (output_file : string) (segment : list F) (sr : Z)
    : IO F unit :=
  match sf_write_error output_file segment sr with
  | Some e => raise e
  | None => emit (EvSfWrite output_file segment sr)
  end.

(** The inner [for] loop over the segments of one file. It returns how it
    ended together with the two lists it appends to,
    [processed_filenames_for_file] ([names]) and [processed_files]
    ([written]), as they are at that point: the name is appended before the
    write, the path after it. *)
Fixpoint save_segments (out_path domain set_type : string)
    (segments : list (list F * Z)) (names written : list string)
    (st : state F) : (outcome unit * list string * list string) * state F :=
  match segments with
  | [] => ((Ok tt, names, written), st)
  | (segment, sr) :: rest =>
      if (target_count self set_type <=? Z.of_nat (length written))%Z then
        ((Ok tt, names, written), st)
      else
        let processed_filename := wav_name domain (length written) in
        let names := names ++ [processed_filename] in
        let output_file := joinpath out_path processed_filename in
        match sf_write output_file segment sr st with
        | (Ok _, st') =>
            save_segments out_path domain set_type rest names
              (written ++ [output_file]) st'
        | (Raise e, st') => ((Raise e, names, written), st')
        | (Hang, st') => ((Hang, names, written), st')
        end
  end.

(** The part of the loop body that can raise, with its [except]: load,
    segment, save, record. The list [written] comes back as the body left
    it. *)
Definition process_one_file (out_path domain set_type file_path : string)
    (written : list string) : IO F (list string) :=
  λ st,
    match load_and_process_audio w self file_path set_type st with
    | (Ok segments, st1) =>
        match
          save_segments out_path domain set_type segments [] written st1
        with
        | ((Ok _, names, written'), st2) =>
            (let* now := datetime_now w in
             set_processed_file (basename file_path)
               {| full_path := file_path;
                  processed_datetime := now;
                  processed_filenames := names |} ;;
             ret written') st2
        | ((Raise e, _, written'), st2) =>
            (print ("Error processing " +:+ file_path +:+ ": " +:+ e) ;;
             ret written') st2
        | ((Hang, _, _), st2) => (Hang, st2)
        end
    | (Raise e, st1) =>
        (print ("Error processing " +:+ file_path +:+ ": " +:+ e) ;;
         ret written) st1
    | (Hang, st1) => (Hang, st1)
    end.

Fixpoint process_files (out_path domain set_type : string)
    (files : list string) (written : list string) : IO F (list string) :=
  match files with
  | [] => ret written
  | file_path :: rest =>
      let filename := basename file_path in
      if decide (filename ∈ previously_processed_files self) then
        process_files out_path domain set_type rest written
      else if (target_count self set_type <=? Z.of_nat (length written))%Z then
        ret written
      else
        let* recorded := get_processed_files in
        if decide (filename ∈ dom recorded) then
          process_files out_path domain set_type rest written
        else
          let* written' :=
            process_one_file out_path domain set_type file_path written in
          process_files out_path domain set_type rest written'
  end.

Definition process_domain_files (files : list string)
    (output_dir domain set_type : string) : IO F (gmap string (list string)) :=
  let out_path := joinpath (joinpath output_dir set_type) domain in
  emit (EvMkdir out_path) ;;
  let* written := process_files out_path domain set_type files [] in
  ret {[ (domain +:+ "_" +:+ set_type)%string := written ]}.

Fixpoint process_domains (output_dir set_type : string)
    (domains : list (string * list string))
    (dataset_splits : gmap string (list string))
    : IO F (gmap string (list string)) :=
  match domains with
  | [] => ret dataset_splits
  | (domain, files) :: rest =>
      let* split_files :=
        process_domain_files files output_dir domain set_type in
      process_domains output_dir set_type rest (split_files ∪ dataset_splits)
  end.

Definition create_dataset_splits
    (speech_files music_files env_files : list string) (output_dir : string)
    : IO F (gmap string (list string)) :=
  let domains :=
    [("speech"%string, speech_files); ("music"%string, music_files);
     ("environmental"%string, env_files)] in
  reset_segment_stats ;;
  reset_processed_segments ;;
  let* dataset_splits := process_domains output_dir "calibration" domains ∅ in
  reset_segment_stats ;;
  process_domains output_dir "evaluation" domains dataset_splits.

End Batcher.

End WriteFaults.

(** A disk that refuses one file: the second file of the speech calibration
    bucket. *)
Module Scenario3.
Import Float64 Posix.

Definition sf_write_error (output_file : string) (segment : list float)
    (sr : Z) : option string :=
  if String.eqb output_file "out/calibration/speech/speech_0001.wav" then
    Some "Error opening file: Permission denied"%string
  else None.

End Scenario3.

(** ** Facts about the Python helpers *)

Module PyFacts.
Import Py.

Lemma parse_zeros_app k s : parse_nat (zeros k +:+ s) = parse_nat s.
Proof.
  induction k as [|k IH]; [done|].
  rewrite <- IH. unfold parse_nat. simpl.
  destruct (NilEmpty.uint_of_string (zeros k +:+ s)); reflexivity.
Qed.

Lemma parse_str_of_nat n : parse_nat (str_of_nat n) = Some n.
Proof.
  unfold parse_nat, str_of_nat. rewrite NilEmpty.usu. simpl.
  f_equal. apply Unsigned.of_to.
Qed.

Lemma parse_format_04d n : parse_nat (format_04d n) = Some n.
Proof. unfold format_04d. rewrite parse_zeros_app. apply parse_str_of_nat. Qed.

Lemma format_04d_inj n m : format_04d n = format_04d m → n = m.
Proof.
  intros E. apply (f_equal parse_nat) in E.
  rewrite !parse_format_04d in E. congruence.
Qed.

Lemma slice_window {A} (l : list A) (i t : Z) :
  (0 ≤ i)%Z → (0 ≤ t)%Z → (i + t ≤ Z.of_nat (length l))%Z →
  slice l i (i + t) = take (Z.to_nat t) (drop (Z.to_nat i) l).
Proof.
  intros Hi Ht Hl. unfold slice, slice_index.
  destruct (Z.ltb_spec i 0); [lia|].
  destruct (Z.ltb_spec (i + t) 0); [lia|].
  rewrite !Z.min_l by lia. f_equal. lia.
Qed.

Lemma slice_window_length {A} (l : list A) (i t : Z) :
  (0 ≤ i)%Z → (0 ≤ t)%Z → (i + t ≤ Z.of_nat (length l))%Z →
  Z.of_nat (length (slice l i (i + t))) = t.
Proof.
  intros Hi Ht Hl. rewrite slice_window by done.
  rewrite length_take, length_drop. lia.
Qed.

Lemma length_append (a b : string) :
  String.length (a +:+ b) = String.length a + String.length b.
Proof. induction a as [|c a IH]; simpl; [done|by rewrite IH]. Qed.

Lemma append_inv_tail (a b c : string) : a +:+ c = b +:+ c → a = b.
Proof.
  revert b. induction a as [|x a IH]; intros [|y b] E; simpl in E.
  - done.
  - apply (f_equal String.length) in E.
    rewrite !length_append in E. simpl in E. lia.
  - apply (f_equal String.length) in E.
    rewrite !length_append in E. simpl in E. lia.
  - injection E as -> E. f_equal. by apply IH.
Qed.

Lemma append_inv_head (a b c : string) : c +:+ a = c +:+ b → a = b.
Proof. induction c as [|x c IH]; simpl; [done|]. intros [= E]. by apply IH. Qed.

Example format_04d_examples :
  format_04d 0 = "0000"%string ∧ format_04d 7 = "0007"%string
  ∧ format_04d 299 = "0299"%string ∧ format_04d 1000 = "1000"%string.
Proof. by vm_compute. Qed.

End PyFacts.

(** ** The segmenter's window loop *)

Section Windows.
Context {F : Type} `{NumPy F}.
Variable self : AudioDataProcessor.

Local Abbreviation T := (target_samples self).
Local Abbreviation G := (gap_samples self).

Lemma offsets_from_S pos n :
  offsets_from self pos (S n) = pos :: offsets_from self (pos + T + G) n.
Proof.
  unfold offsets_from. simpl. f_equal; [lia|].
  rewrite <- seq_shift, map_map. apply map_ext. intros k. lia.
Qed.

Lemma remaining_S L pos :
  (0 < T + G)%Z → (pos + T ≤ L)%Z →
  remaining self L pos = S (remaining self L (pos + T + G)).
Proof.
  intros Hstep Hfit. unfold remaining.
  destruct (Z.leb_spec (pos + T) L); [|lia].
  destruct (Z.leb_spec (pos + T + G + T) L) as [Hnext|Hnext].
  - replace (L - T - pos)%Z with ((L - T - (pos + T + G)) + 1 * (T + G))%Z
      by lia.
    rewrite Z.div_add by lia.
    assert (0 ≤ (L - T - (pos + T + G)) / (T + G))%Z
      by (apply Z.div_pos; lia).
    lia.
  - rewrite Z.div_small by lia. reflexivity.
Qed.

Lemma remaining_le L pos :
  (0 < T + G)%Z → (0 ≤ pos)%Z → remaining self L pos ≤ S (Z.to_nat (L - T)).
Proof.
  intros Hstep Hpos. unfold remaining.
  destruct (Z.leb_spec (pos + T) L); [|lia].
  assert ((L - T - pos) / (T + G) ≤ (L - T - pos) / 1)%Z
    by (apply Z.div_le_compat_l; lia).
  rewrite Z.div_1_r in *. lia.
Qed.

(** With a positive stride the loop ends, and it keeps exactly the
    energetic windows among the remaining ones, in order. *)
Lemma sequential_windows_fuel fuel audio sr pos segments :
  (0 < T + G)%Z →
  remaining self (Z.of_nat (length audio)) pos < fuel →
  sequential_windows self fuel audio sr pos segments
  = Some (segments
            ++ kept self audio sr
                 (offsets_from self pos
                    (remaining self (Z.of_nat (length audio)) pos))).
Proof.
  intros Hstep. revert pos segments.
  induction fuel as [|fuel IH]; intros pos segments Hfuel; [lia|].
  simpl. destruct (Z.leb_spec (pos + T) (Z.of_nat (length audio))) as [Hfit|Hout].
  - rewrite (remaining_S _ pos) in * by done.
    rewrite IH by lia. rewrite offsets_from_S.
    unfold kept. simpl. fold (window_at self audio pos).
    fold (energy_ok (window_at self audio pos)).
    destruct (energy_ok (window_at self audio pos)); simpl.
    + rewrite <- app_assoc. reflexivity.
    + reflexivity.
  - unfold remaining.
    destruct (Z.leb_spec (pos + T) (Z.of_nat (length audio))); [lia|].
    unfold kept, offsets_from. simpl. by rewrite app_nil_r.
Qed.

(** With a stride that is not positive the loop never leaves a buffer it
    has entered. *)
Lemma sequential_windows_hang fuel audio sr pos segments :
  (T + G ≤ 0)%Z → (pos + T ≤ Z.of_nat (length audio))%Z →
  sequential_windows self fuel audio sr pos segments = None.
Proof.
  intros Hstep. revert pos segments.
  induction fuel as [|fuel IH]; intros pos segments Hfit; [done|].
  simpl. destruct (Z.leb_spec (pos + T) (Z.of_nat (length audio))); [|lia].
  apply IH. lia.
Qed.

(** More fuel never changes an answer. *)
Lemma sequential_windows_more fuel fuel' audio sr pos segments r :
  sequential_windows self fuel audio sr pos segments = Some r →
  fuel ≤ fuel' →
  sequential_windows self fuel' audio sr pos segments = Some r.
Proof.
  revert fuel' pos segments.
  induction fuel as [|fuel IH]; intros fuel' pos segments Hr Hle; [done|].
  destruct fuel' as [|fuel']; [lia|]. simpl in *.
  destruct (pos + T <=? Z.of_nat (length audio))%Z; [|done].
  apply IH; [done|lia].
Qed.

Lemma enough_fuel_enough (audio : list F) :
  (0 < T + G)%Z →
  remaining self (Z.of_nat (length audio)) 0 < enough_fuel self audio.
Proof.
  intros Hstep. unfold enough_fuel.
  pose proof (remaining_le (Z.of_nat (length audio)) 0 Hstep). lia.
Qed.

(** The fuel [load_and_process_audio] gives the loop decides whether the
    loop ends: it runs out exactly when the stride is not positive, and then
    no amount of fuel is enough. *)
Lemma enough_fuel_exact (audio : list F) sr :
  (T ≤ Z.of_nat (length audio))%Z →
  sequential_windows self (enough_fuel self audio) audio sr 0 [] = None
  ↔ ∀ fuel, sequential_windows self fuel audio sr 0 [] = None.
Proof.
  intros Hlong. split; [|intros Hall; apply Hall].
  intros Hnone fuel. destruct (Z.lt_ge_cases 0 (T + G)) as [Hstep|Hstep].
  - rewrite (sequential_windows_fuel _ audio sr 0 [] Hstep) in Hnone
      by apply (enough_fuel_enough audio Hstep).
    discriminate.
  - apply sequential_windows_hang; lia.
Qed.

Lemma preprocess_length (audio : list F) :
  length (preprocess audio) = length audio.
Proof. unfold preprocess. by rewrite length_map, librosa_normalize_length. Qed.

End Windows.

(** ** What one file does *)

Section Runs.
Context {F : Type} `{NumPy F} `{OsPath}.
Variable w : World F.
Variable self : AudioDataProcessor.

Local Arguments sequential_windows : simpl never.
Local Arguments enough_fuel : simpl never.

Lemma add_events_nil (st : state F) : add_events st [] = st.
Proof. destruct st. unfold add_events. simpl. by rewrite app_nil_r. Qed.

Lemma add_events_app (st : state F) a b :
  add_events (add_events st a) b = add_events st (a ++ b).
Proof. unfold add_events. simpl. by rewrite app_assoc. Qed.

Lemma load_audio_file_run file_path st :
  load_audio_file w self file_path st
  = (decode w self file_path,
     add_events st
       (EvDecode file_path :: map EvPrint (decode_prints w self file_path))).
Proof.
  unfold load_audio_file, decode_prints, decode, try_except, bind, emit, lift,
    print, emit, ret, raise.
  destruct (String.eqb (suffix_lower file_path) ".mp4").
  - destruct (open_video w file_path) as [video|e|]; simpl;
      rewrite ?add_events_app; try reflexivity.
    destruct (video_audio video) as [to_soundarray|]; simpl;
      rewrite ?add_events_app; try reflexivity.
    destruct (to_soundarray (target_sr self)) as [arr|e|]; simpl;
      rewrite ?add_events_app; reflexivity.
  - destruct (librosa_load w file_path (target_sr self)) as [[y sr]|e|]; simpl;
      rewrite ?add_events_app; reflexivity.
Qed.

Lemma load_and_process_audio_run file_path set_type st :
  load_and_process_audio w self file_path set_type st
  = (process_audio w self file_path,
     add_events st (process_audio_events w self file_path)).
Proof.
  unfold load_and_process_audio, try_except, bind.
  rewrite load_audio_file_run.
  unfold process_audio, process_audio_events, process_audio_prints,
    decode_prints, segment_buffer, print, emit, ret, raise, lift.
  destruct (decode w self file_path) as [[[audio|] sr]|e|]; simpl;
    rewrite ?add_events_app; try reflexivity.
  fold (energy_ok audio). fold (preprocess audio).
  destruct (Z.of_nat (length audio) <? target_samples self)%Z; simpl.
  - destruct (energy_ok audio); simpl; rewrite ?add_events_app; reflexivity.
  - destruct (sequential_windows self (enough_fuel self (preprocess audio))
                (preprocess audio) sr 0 []); reflexivity.
Qed.

Lemma room_0 set_type written :
  (target_count self set_type ≤ Z.of_nat (length written))%Z →
  room self set_type written = 0.
Proof. unfold room. lia. Qed.

Lemma room_S set_type written x :
  (Z.of_nat (length written) < target_count self set_type)%Z →
  room self set_type written = S (room self set_type (written ++ [x])).
Proof. unfold room. rewrite length_app. simpl. lia. Qed.

Lemma save_segments_run out_path domain set_type
    (segments : list (list F * Z)) names written st :
  let k := Nat.min (length segments) (room self set_type written) in
  save_segments self out_path domain set_type segments names written st
  = (Ok (names ++ map (wav_name domain) (seq (length written) k),
         written ++ wav_paths out_path domain (length written) k),
     add_events st
       (write_events out_path domain (length written) (take k segments))).
Proof.
  revert names written st.
  induction segments as [|[segment sr] rest IH]; intros names written st k.
  - subst k. simpl. by rewrite !app_nil_r, add_events_nil.
  - simpl.
    destruct (Z.leb_spec (target_count self set_type) (Z.of_nat (length written)))
      as [Hfull|Hroom].
    + subst k. rewrite room_0 by done. rewrite Nat.min_0_r. simpl.
      by rewrite !app_nil_r, add_events_nil.
    + subst k.
      rewrite (room_S _ _ (joinpath out_path (wav_name domain (length written))))
        by done.
      simpl. unfold bind, sf_write, emit. rewrite IH.
      rewrite add_events_app, length_app. simpl.
      rewrite Nat.add_1_r, <- !app_assoc. reflexivity.
Qed.

(** The numbers of the files and the states a file leaves behind, by what
    it segments to. *)
Lemma process_one_file_run out_path domain set_type file_path written st :
  process_one_file w self out_path domain set_type file_path written st
  = match process_audio w self file_path with
    | Ok segments =>
        let k := Nat.min (length segments) (room self set_type written) in
        (Ok (written ++ wav_paths out_path domain (length written) k),
         record_file w file_path
           (map (wav_name domain) (seq (length written) k))
           (add_events st
              (process_audio_events w self file_path
                 ++ write_events out_path domain (length written)
                      (take k segments))))
    | Raise e =>
        (Ok written,
         add_events st
           (process_audio_events w self file_path
              ++ [EvPrint ("Error processing " +:+ file_path +:+ ": " +:+ e)]))
    | Hang => (Hang, add_events st (process_audio_events w self file_path))
    end.
Proof.
  unfold process_one_file, try_except, bind.
  rewrite load_and_process_audio_run.
  destruct (process_audio w self file_path) as [segments|e|]; simpl.
  - rewrite save_segments_run. simpl.
    unfold record_file, add_events. simpl. by rewrite <- app_assoc.
  - unfold print, emit. by rewrite add_events_app.
  - reflexivity.
Qed.

End Runs.

(** ** Reading traces *)

Section Traces.
Context {F : Type} `{NumPy F} `{OsPath}.
Variable w : World F.
Variable self : AudioDataProcessor.

Lemma written_paths_app (a b : list (event F)) :
  written_paths (a ++ b) = written_paths a ++ written_paths b.
Proof. unfold written_paths. apply omap_app. Qed.

Lemma written_paths_prints msgs :
  written_paths (F := F) (map EvPrint msgs) = [].
Proof. induction msgs as [|m msgs IH]; [done|]. exact IH. Qed.

Lemma written_paths_process_audio_events file_path :
  written_paths (process_audio_events w self file_path) = [].
Proof. unfold process_audio_events. apply written_paths_prints. Qed.

Lemma written_paths_write_events out_path domain start
    (segments : list (list F * Z)) :
  written_paths (write_events out_path domain start segments)
  = wav_paths out_path domain start (length segments).
Proof.
  revert start. induction segments as [|[segment sr] rest IH]; intros start.
  - reflexivity.
  - simpl. unfold wav_paths in *. simpl. unfold written_paths in *. simpl.
    f_equal. apply IH.
Qed.

Lemma wav_paths_app out_path domain start a b :
  wav_paths out_path domain start a ++ wav_paths out_path domain (start + a) b
  = wav_paths out_path domain start (a + b).
Proof. unfold wav_paths. by rewrite seq_app, map_app. Qed.

Lemma length_wav_paths out_path domain start k :
  length (wav_paths out_path domain start k) = k.
Proof. unfold wav_paths. by rewrite length_map, length_seq. Qed.

Lemma mkdirs_app (a b : list (event F)) :
  mkdirs (a ++ b) = mkdirs a + mkdirs b.
Proof.
  induction a as [|ev a IH]; [done|].
  destruct ev; simpl; rewrite IH; done.
Qed.

Lemma mkdirs_prints msgs : mkdirs (F := F) (map EvPrint msgs) = 0.
Proof. induction msgs as [|m msgs IH]; [done|]. exact IH. Qed.

Lemma mkdirs_process_audio_events file_path :
  mkdirs (process_audio_events w self file_path) = 0.
Proof. unfold process_audio_events. apply mkdirs_prints. Qed.

Lemma mkdirs_write_events out_path domain start
    (segments : list (list F * Z)) :
  mkdirs (write_events out_path domain start segments) = 0.
Proof.
  revert start. induction segments as [|[segment sr] rest IH]; intros start;
    [done|]. simpl. apply IH.
Qed.

(** A write of [a ++ b] is a write of [a], or a write of [b] counted
    after the [mkdir]s of [a]. *)
Lemma contributions_app_elem call cur (a b : list (event F)) x :
  x ∈ contributions call cur (a ++ b) →
  x ∈ contributions call cur a
  ∨ ∃ cur', x ∈ contributions (call + mkdirs a) cur' b.
Proof.
  revert call cur. induction a as [|ev a IH]; intros call cur Hx.
  - right. exists cur. simpl. by rewrite Nat.add_0_r.
  - destruct ev as [msg|path|path|path data sr]; simpl in *.
    + by apply IH.
    + by apply IH.
    + apply IH in Hx. rewrite Nat.add_succ_r. exact Hx.
    + apply elem_of_cons in Hx as [->|Hx]; [left; left|].
      apply IH in Hx as [Hx|Hx]; [left; by right|by right].
Qed.

Lemma contributions_prints call cur msgs (tr : list (event F)) :
  contributions call cur (map EvPrint msgs ++ tr) = contributions call cur tr.
Proof. induction msgs as [|m msgs IH]; [done|]. exact IH. Qed.

Lemma contributions_write_events call cur out_path domain start
    (segments : list (list F * Z)) x :
  x ∈ contributions call cur (write_events out_path domain start segments) →
  x = (call, cur).
Proof.
  revert start. induction segments as [|[segment sr] rest IH]; intros start Hx.
  - by apply elem_of_nil in Hx.
  - simpl in Hx. apply elem_of_cons in Hx as [->|Hx]; [done|].
    by apply IH in Hx.
Qed.

(** The writes of one file's events are attributed to that file. *)
Lemma contributions_file_block call cur file_path out_path domain start
    (segments : list (list F * Z)) x :
  x ∈ contributions call cur
        (process_audio_events w self file_path
           ++ write_events out_path domain start segments) →
  x = (call, Some file_path).
Proof.
  unfold process_audio_events. simpl. rewrite contributions_prints.
  apply contributions_write_events.
Qed.

Lemma contributions_no_write call cur file_path msgs x :
  x ∈ contributions call cur
        (process_audio_events w self file_path ++ map EvPrint msgs) →
  False.
Proof.
  unfold process_audio_events. simpl. rewrite contributions_prints.
  rewrite <- (app_nil_r (map EvPrint msgs)), contributions_prints. simpl.
  apply not_elem_of_nil.
Qed.

Lemma decoded_paths_app (a b : list (event F)) :
  decoded_paths (a ++ b) = decoded_paths a ++ decoded_paths b.
Proof. unfold decoded_paths. apply omap_app. Qed.

Lemma decoded_paths_prints msgs :
  decoded_paths (F := F) (map EvPrint msgs) = [].
Proof. induction msgs as [|m msgs IH]; [done|]. exact IH. Qed.

Lemma decoded_paths_process_audio_events file_path :
  decoded_paths (process_audio_events w self file_path) = [file_path].
Proof.
  unfold process_audio_events, decoded_paths. simpl. f_equal.
  apply decoded_paths_prints.
Qed.

Lemma decoded_paths_write_events out_path domain start
    (segments : list (list F * Z)) :
  decoded_paths (write_events out_path domain start segments) = [].
Proof.
  revert start. induction segments as [|[segment sr] rest IH]; intros start;
    [done|]. simpl. apply IH.
Qed.

End Traces.

(** ** The outer loop of the batcher *)

Section Batcher.
Context {F : Type} `{NumPy F} `{OsPath}.
Variable w : World F.
Variable self : AudioDataProcessor.

Local Arguments process_audio_events : simpl never.

Lemma batch_post_stop out_path domain set_type files written (st : state F) :
  batch_post w self out_path domain set_type files written st (Ok written, st).
Proof.
  exists [], 0. simpl. unfold wav_paths. simpl.
  split_and!; try done.
  - by rewrite app_nil_r.
  - lia.
  - intros l [= <-]. by rewrite app_nil_r.
  - intros call cur x Hx. by apply elem_of_nil in Hx.
  - intros p Hp. by apply elem_of_nil in Hp.
  - intros key rec Hrec. by left.
Qed.

Lemma batch_post_skip out_path domain set_type file_path rest written
    (st : state F) r :
  batch_post w self out_path domain set_type rest written st r →
  batch_post w self out_path domain set_type (file_path :: rest) written st r.
Proof.
  intros (tr & n & Hev & Hwr & Hn & Hok & Hraise & Hmk & Hsub & Hcon & Hdec & Hrec).
  exists tr, n. split_and!; try done.
  - intros p Hp. destruct (Hdec p Hp) as (? & ? & ?). split_and!; try done.
    by apply list_elem_of_further.
  - intros key rec Hk. destruct (Hrec key rec Hk) as [?|(? & ? & ? & ?)];
      [by left|].
    right. split_and!; try done. by apply list_elem_of_further.
Qed.

Lemma room_after set_type written (l : list string) k :
  length l = k → k ≤ room self set_type written →
  room self set_type (written ++ l) = room self set_type written - k.
Proof. intros <- Hk. unfold room in *. rewrite length_app. lia. Qed.

(** A file that segments: its block of events, then the rest of the loop. *)
Lemma batch_post_step_ok out_path domain set_type file_path rest written
    (st : state F) segments r :
  process_audio w self file_path = Ok segments →
  basename file_path ∉ previously_processed_files self →
  basename file_path ∉ dom (processed_files st) →
  let k := Nat.min (length segments) (room self set_type written) in
  batch_post w self out_path domain set_type rest
    (written ++ wav_paths out_path domain (length written) k)
    (record_file w file_path (map (wav_name domain) (seq (length written) k))
       (add_events st
          (process_audio_events w self file_path
             ++ write_events out_path domain (length written) (take k segments))))
    r →
  batch_post w self out_path domain set_type (file_path :: rest) written st r.
Proof.
  intros Hseg Hprev Hfresh k.
  intros (tr & n & Hev & Hwr & Hn & Hok & Hraise & Hmk & Hsub & Hcon & Hdec & Hrec).
  assert (Hk : length (take k segments) = k) by (rewrite length_take; lia).
  assert (Hkroom : k ≤ room self set_type written) by lia.
  rewrite length_app, length_wav_paths in Hwr, Hok.
  rewrite (room_after _ _ _ k) in Hn by (apply length_wav_paths || done).
  simpl in Hev, Hsub, Hcon, Hdec, Hrec.
  exists ((process_audio_events w self file_path
             ++ write_events out_path domain (length written) (take k segments))
            ++ tr), (k + n).
  split_and!.
  - rewrite Hev. by rewrite app_assoc.
  - rewrite !written_paths_app, written_paths_process_audio_events,
      written_paths_write_events, Hk, Hwr. simpl. apply wav_paths_app.
  - lia.
  - intros l Hl. rewrite (Hok l Hl), <- app_assoc. f_equal. apply wav_paths_app.
  - done.
  - rewrite !mkdirs_app, mkdirs_process_audio_events, mkdirs_write_events. done.
  - etrans; [|exact Hsub]. apply insert_subseteq.
    by apply not_elem_of_dom.
  - intros call cur x Hx. apply contributions_app_elem in Hx as [Hx|[cur' Hx]].
    + apply contributions_file_block in Hx as ->.
      exists file_path. split_and!; try done.
      apply elem_of_dom. eapply lookup_weaken_is_Some; [|exact Hsub].
      rewrite lookup_insert_eq. by eexists.
    + rewrite mkdirs_app, mkdirs_process_audio_events, mkdirs_write_events,
        Nat.add_0_r in Hx.
      destruct (Hcon call cur' x Hx) as (p & -> & Hp1 & Hp2).
      exists p. split_and!; try done.
      intros Hin. apply Hp1. rewrite dom_insert_L, elem_of_union. by right.
  - intros p Hp.
    rewrite !decoded_paths_app, decoded_paths_process_audio_events,
      decoded_paths_write_events in Hp. simpl in Hp.
    apply elem_of_cons in Hp as [->|Hp].
    + split_and!; try done. by left.
    + destruct (Hdec p Hp) as (? & ? & Hnot). split_and!; try done.
      * by apply list_elem_of_further.
      * intros Hin. apply Hnot. rewrite dom_insert_L, elem_of_union. by right.
  - intros key rec Hk'. destruct (Hrec key rec Hk') as [Hold|(? & ? & ? & ?)].
    + destruct (decide (key = basename file_path)) as [->|Hne].
      * rewrite lookup_insert_eq in Hold. injection Hold as <-. simpl.
        right. split_and!; try done; [by left|by eexists].
      * rewrite lookup_insert_ne in Hold by done. by left.
    + right. split_and!; try done. by apply list_elem_of_further.
Qed.

(** A file whose loading raises: its prints, then the rest of the loop. *)
Lemma batch_post_step_raise out_path domain set_type file_path rest written
    (st : state F) e r :
  basename file_path ∉ previously_processed_files self →
  basename file_path ∉ dom (processed_files st) →
  batch_post w self out_path domain set_type rest written
    (add_events st
       (process_audio_events w self file_path
          ++ [EvPrint ("Error processing " +:+ file_path +:+ ": " +:+ e)]))
    r →
  batch_post w self out_path domain set_type (file_path :: rest) written st r.
Proof.
  intros Hprev Hfresh.
  intros (tr & n & Hev & Hwr & Hn & Hok & Hraise & Hmk & Hsub & Hcon & Hdec & Hrec).
  simpl in Hev, Hsub, Hcon, Hdec, Hrec.
  exists ((process_audio_events w self file_path
             ++ map EvPrint ["Error processing " +:+ file_path +:+ ": " +:+ e])
            ++ tr), n.
  split_and!; try done.
  - rewrite Hev. by rewrite app_assoc.
  - rewrite !written_paths_app, written_paths_process_audio_events,
      written_paths_prints, Hwr. done.
  - rewrite !mkdirs_app, mkdirs_process_audio_events, mkdirs_prints. done.
  - intros call cur x Hx. apply contributions_app_elem in Hx as [Hx|[cur' Hx]].
    + by apply contributions_no_write in Hx.
    + rewrite mkdirs_app, mkdirs_process_audio_events, mkdirs_prints,
        Nat.add_0_r in Hx.
      by apply (Hcon call cur' x).
  - intros p Hp.
    rewrite !decoded_paths_app, decoded_paths_process_audio_events,
      decoded_paths_prints in Hp. simpl in Hp.
    apply elem_of_cons in Hp as [->|Hp].
    + split_and!; try done. by left.
    + destruct (Hdec p Hp) as (? & ? & ?). split_and!; try done.
      by apply list_elem_of_further.
  - intros key rec Hk'. destruct (Hrec key rec Hk') as [Hold|(? & ? & ? & ?)];
      [by left|].
    right. split_and!; try done. by apply list_elem_of_further.
Qed.

(** A file whose decoding or segmentation never ends. *)
Lemma batch_post_hang out_path domain set_type file_path rest written
    (st : state F) :
  basename file_path ∉ previously_processed_files self →
  basename file_path ∉ dom (processed_files st) →
  batch_post w self out_path domain set_type (file_path :: rest) written st
    (Hang, add_events st (process_audio_events w self file_path)).
Proof.
  intros Hprev Hfresh.
  exists (process_audio_events w self file_path), 0.
  split_and!; cbn [fst snd].
  - reflexivity.
  - apply written_paths_process_audio_events.
  - lia.
  - intros l [=].
  - intros e [=].
  - apply mkdirs_process_audio_events.
  - reflexivity.
  - intros call cur x Hx. exfalso.
    apply (contributions_no_write w self call cur file_path [] x).
    by rewrite app_nil_r.
  - intros p Hp. rewrite decoded_paths_process_audio_events in Hp.
    apply list_elem_of_singleton in Hp as ->. split_and!; try done. by left.
  - intros key rec Hk'. by left.
Qed.

(** The outer loop keeps its promise from every list and state. *)
Lemma process_files_post out_path domain set_type files written (st : state F) :
  batch_post w self out_path domain set_type files written st
    (process_files w self out_path domain set_type files written st).
Proof.
  revert written st. induction files as [|file_path rest IH]; intros written st.
  - apply batch_post_stop.
  - simpl. case_decide as Hprev; [apply batch_post_skip, IH|].
    destruct (target_count self set_type <=? Z.of_nat (length written))%Z;
      [apply batch_post_stop|].
    unfold bind at 1. unfold get_processed_files.
    case_decide as Hrec; [apply batch_post_skip, IH|].
    unfold bind. rewrite process_one_file_run.
    destruct (process_audio w self file_path) as [segments|e|] eqn:Hseg.
    + eapply batch_post_step_ok; [exact Hseg|done|done|]. apply IH.
    + eapply batch_post_step_raise; [done|done|]. apply IH.
    + by apply batch_post_hang.
Qed.

(** One call of [process_domain_files]: the [mkdir], then the outer loop
    from an empty list. *)
Lemma process_domain_files_run files output_dir domain set_type (st : state F) :
  let out_path := bucket_path output_dir domain set_type in
  let r := process_files w self out_path domain set_type files []
             (add_events st [EvMkdir out_path]) in
  process_domain_files w self files output_dir domain set_type st
  = (match fst r with
     | Ok written => Ok {[ bucket_key domain set_type := written ]}
     | Raise e => Raise e
     | Hang => Hang
     end, snd r).
Proof.
  intros out_path r. unfold process_domain_files, bind, emit, ret.
  fold (bucket_path output_dir domain set_type). fold out_path. fold r.
  by destruct r as [[written|e|] st'].
Qed.

(** The writes of one call: numbered from zero, within the quota. *)
Lemma process_domain_files_writes files output_dir domain set_type
    (st : state F) :
  let out_path := bucket_path output_dir domain set_type in
  let r := process_domain_files w self files output_dir domain set_type st in
  ∃ n,
    written_paths (new_events st r) = wav_paths out_path domain 0 n
    ∧ (Z.of_nat n ≤ Z.max 0 (target_count self set_type))%Z
    ∧ (∀ splits, fst r = Ok splits →
         splits = {[ bucket_key domain set_type := wav_paths out_path domain 0 n ]})
    ∧ (∀ e, fst r ≠ Raise e).
Proof.
  intros out_path r. subst r. rewrite process_domain_files_run. fold out_path.
  destruct (process_files_post out_path domain set_type files []
              (add_events st [EvMkdir out_path]))
    as (tr & n & Hev & Hwr & Hn & Hok & Hraise & _).
  exists n. unfold new_events. cbn [fst snd] in *. rewrite Hev. simpl.
  rewrite <- app_assoc, drop_app_length. simpl. unfold room in Hn. simpl in Hn.
  split_and!.
  - exact Hwr.
  - lia.
  - intros splits Hs.
    destruct (process_files w self out_path domain set_type files []
                (add_events st [EvMkdir out_path])) as [[written|e|] st'];
      simpl in *; try done.
    injection Hs as <-. by rewrite (Hok written eq_refl).
  - intros e He.
    destruct (process_files w self out_path domain set_type files []
                (add_events st [EvMkdir out_path])) as [[written|e'|] st'];
      simpl in *; try done.
    by apply (Hraise e').
Qed.

Lemma wav_name_inj domain i j : wav_name domain i = wav_name domain j → i = j.
Proof.
  unfold wav_name. intros E.
  apply PyFacts.append_inv_head, PyFacts.append_inv_head in E.
  apply PyFacts.append_inv_tail in E. by apply PyFacts.format_04d_inj.
Qed.

Lemma NoDup_wav_names domain start n :
  NoDup (map (wav_name domain) (seq start n)).
Proof.
  change (NoDup (wav_name domain <$> seq start n)).
  apply NoDup_fmap_2_strong; [|apply NoDup_seq].
  intros i j _ _. apply wav_name_inj.
Qed.

Lemma wav_name_0 domain : wav_name domain 0 = (domain +:+ "_0000.wav")%string.
Proof. reflexivity. Qed.

(** What one call of [process_domain_files] adds: one [mkdir], then the
    events of the outer loop, with the guarantees of [batch_post]. *)
Lemma process_domain_files_post files output_dir domain set_type
    (st : state F) :
  let out_path := bucket_path output_dir domain set_type in
  let r := process_domain_files w self files output_dir domain set_type st in
  ∃ body,
    events (snd r) = events st ++ EvMkdir out_path :: body
    ∧ mkdirs body = 0
    ∧ processed_files st ⊆ processed_files (snd r)
    ∧ (∀ call cur x, x ∈ contributions call cur body →
         ∃ p, x = (call, Some p)
              ∧ (basename p ∉ dom (processed_files st))
              ∧ basename p ∈ dom (processed_files (snd r)))
    ∧ (∀ p, p ∈ decoded_paths body →
         p ∈ files
         ∧ (basename p ∉ previously_processed_files self)
         ∧ (basename p ∉ dom (processed_files st)))
    ∧ (∀ key rec, processed_files (snd r) !! key = Some rec →
         processed_files st !! key = Some rec
         ∨ (key = basename (full_path rec)
            ∧ (key ∉ previously_processed_files self)
            ∧ full_path rec ∈ files
            ∧ ∃ segments, process_audio w self (full_path rec) = Ok segments)).
Proof.
  intros out_path r. subst r. rewrite process_domain_files_run. fold out_path.
  destruct (process_files_post out_path domain set_type files []
              (add_events st [EvMkdir out_path]))
    as (tr & n & Hev & _ & _ & _ & _ & Hmk & Hsub & Hcon & Hdec & Hrec).
  exists tr. cbn [fst snd] in *. simpl in Hev.
  split_and!; try done.
  by rewrite Hev, <- app_assoc.
Qed.

(** Candidates processed in an earlier run can be struck off the list. *)
Lemma process_files_filter out_path domain set_type files written
    (st : state F) :
  process_files w self out_path domain set_type files written st
  = process_files w self out_path domain set_type
      (filter (λ p, basename p ∉ previously_processed_files self) files)
      written st.
Proof.
  revert written st. induction files as [|file_path rest IH]; intros written st;
    [done|].
  rewrite filter_cons. simpl. case_decide as Hprev.
  - rewrite decide_False by (intros Hn; by apply Hn). apply IH.
  - rewrite decide_True by done. simpl. rewrite decide_False by done.
    destruct (target_count self set_type <=? Z.of_nat (length written))%Z;
      [done|].
    unfold bind at 1 3. unfold get_processed_files.
    case_decide; [apply IH|].
    unfold bind.
    destruct (process_one_file w self out_path domain set_type file_path
                written st) as [[written'|e|] st1]; [apply IH|done|done].
Qed.

Lemma process_audio_raise file_path e :
  process_audio w self file_path = Raise e → decode w self file_path = Raise e.
Proof.
  unfold process_audio, segment_buffer.
  destruct (decode w self file_path) as [[[audio|] sr]|e'|];
    [|discriminate|intros [= ->]; reflexivity|discriminate].
  destruct (Z.of_nat (length audio) <? target_samples self)%Z.
  - destruct (energy_ok audio); discriminate.
  - destruct (sequential_windows self (enough_fuel self (preprocess audio))
                (preprocess audio) sr 0 []); discriminate.
Qed.

(** The outer loop at a candidate it does process. *)
Lemma process_files_reached out_path domain set_type file_path rest written
    (st : state F) :
  basename file_path ∉ previously_processed_files self →
  (Z.of_nat (length written) < target_count self set_type)%Z →
  basename file_path ∉ dom (processed_files st) →
  process_files w self out_path domain set_type (file_path :: rest) written st
  = bind (process_one_file w self out_path domain set_type file_path written)
      (λ written', process_files w self out_path domain set_type rest written')
      st.
Proof.
  intros Hprev Hroom Hfresh. simpl. rewrite decide_False by done.
  destruct (Z.leb_spec (target_count self set_type) (Z.of_nat (length written)));
    [lia|].
  unfold bind at 1. unfold get_processed_files. by rewrite decide_False.
Qed.

(** A file whose decoder answers segments or raises, but does not hang,
    when the stride is positive. *)
Lemma process_audio_answers file_path :
  (0 < target_samples self + gap_samples self)%Z →
  decode w self file_path ≠ Hang →
  process_audio w self file_path ≠ Hang.
Proof.
  intros Hstep Hdec. unfold process_audio, segment_buffer.
  destruct (decode w self file_path) as [[[audio|] sr]|e|]; try done.
  destruct (Z.of_nat (length audio) <? target_samples self)%Z.
  - by destruct (energy_ok audio).
  - rewrite (sequential_windows_fuel self _ (preprocess audio) sr 0 [] Hstep)
      by apply (enough_fuel_enough self (preprocess audio) Hstep).
    done.
Qed.

(** With a positive stride and decoders that always answer, the outer loop
    returns a list, and so does the call. *)
Lemma process_files_returns out_path domain set_type files written
    (st : state F) :
  (0 < target_samples self + gap_samples self)%Z →
  (∀ p, decode w self p ≠ Hang) →
  ∃ l, fst (process_files w self out_path domain set_type files written st)
       = Ok l.
Proof.
  intros Hstep Hdec. revert written st.
  induction files as [|file_path rest IH]; intros written st; [by eexists|].
  simpl. case_decide; [apply IH|].
  destruct (target_count self set_type <=? Z.of_nat (length written))%Z;
    [by eexists|].
  unfold bind at 1. unfold get_processed_files. case_decide; [apply IH|].
  unfold bind. rewrite process_one_file_run.
  pose proof (process_audio_answers file_path Hstep (Hdec file_path)) as Hans.
  destruct (process_audio w self file_path) as [segments|e|]; [apply IH..|done].
Qed.

Lemma process_domain_files_returns files output_dir domain set_type
    (st : state F) :
  (0 < target_samples self + gap_samples self)%Z →
  (∀ p, decode w self p ≠ Hang) →
  ∃ splits,
    fst (process_domain_files w self files output_dir domain set_type st)
    = Ok splits.
Proof.
  intros Hstep Hdec. rewrite process_domain_files_run. cbn [fst].
  destruct (process_files_returns (bucket_path output_dir domain set_type)
              domain set_type files [] 
              (add_events st [EvMkdir (bucket_path output_dir domain set_type)])
              Hstep Hdec) as [l ->].
  by eexists.
Qed.

End Batcher.

(** ** Properties of the batcher *)

Section BatcherClaims.
Context {F : Type} `{NumPy F} `{OsPath}.

(** C3. For every list of candidate files, domain and split, the number of
    files one call of the batcher writes is at most the quota of the split
    ([calibration_samples] for ["calibration"], [eval_samples] otherwise),
    the quota being a count (not negative). The same bound holds for the
    list the call returns. *)
Theorem quota_never_exceeded (w : World F) (self : AudioDataProcessor)
    files output_dir domain set_type (st : state F) :
  (0 ≤ target_count self set_type)%Z →
  let r := process_domain_files w self files output_dir domain set_type st in
  (Z.of_nat (length (written_paths (new_events st r)))
   ≤ target_count self set_type)%Z
  ∧ (∀ splits, fst r = Ok splits →
       ∃ written,
         splits = {[ bucket_key domain set_type := written ]}
         ∧ written_paths (new_events st r) = written
         ∧ (Z.of_nat (length written) ≤ target_count self set_type)%Z).
Proof.
  intros Hquota r.
  destruct (process_domain_files_writes w self files output_dir domain
              set_type st) as (n & Hwr & Hn & Hok & _).
  fold r in Hwr, Hok. rewrite Hwr, length_wav_paths. split; [lia|].
  intros splits Hs. eexists. split_and!; [by apply Hok|done|].
  rewrite length_wav_paths. lia.
Qed.

(** C9. Within one call of the batcher the files are written under the names
    [f"{domain}_{index:04d}.wav"], the index of a file being the number of
    files written before it in the call: if [n] files are written, the
    indices are 0 .. n-1 in order, and the names are pairwise distinct. The
    list the call returns holds the same paths. *)
Theorem output_names_contiguous (w : World F) (self : AudioDataProcessor)
    files output_dir domain set_type (st : state F) :
  let out_path := bucket_path output_dir domain set_type in
  let r := process_domain_files w self files output_dir domain set_type st in
  let n := length (written_paths (new_events st r)) in
  let names :=
    map (λ index, (domain +:+ "_" +:+ Py.format_04d index +:+ ".wav")%string)
      (seq 0 n) in
  written_paths (new_events st r) = map (joinpath out_path) names
  ∧ NoDup names
  ∧ map Py.parse_nat (map Py.format_04d (seq 0 n)) = map Some (seq 0 n)
  ∧ (∀ splits, fst r = Ok splits →
       splits = {[ bucket_key domain set_type := map (joinpath out_path) names ]}).
Proof.
  intros out_path r n names.
  destruct (process_domain_files_writes w self files output_dir domain
              set_type st) as (k & Hwr & _ & Hok & _).
  fold r out_path in Hwr, Hok.
  assert (n = k) as Hnk by (subst n; by rewrite Hwr, length_wav_paths).
  assert (map (joinpath out_path) names = wav_paths out_path domain 0 k) as Hnames.
  { subst names. rewrite Hnk. unfold wav_paths. by rewrite map_map. }
  split_and!.
  - by rewrite Hnames.
  - apply NoDup_wav_names.
  - rewrite map_map. apply map_ext. intros i. apply PyFacts.parse_format_04d.
  - intros splits Hs. rewrite Hnames. by apply Hok.
Qed.

(** C10. Every call of the batcher numbers its files from zero, whatever
    the previously-processed set, the processed-file map and the events
    (hence the files on disk) it starts from: the i-th file it writes is
    [{domain}_{i:04d}.wav] in the bucket directory, the first one
    [{domain}_0000.wav]. So two calls for the same bucket, from any two
    states, configurations, worlds and candidate lists, write the same path
    at every position both reach: a later run reuses the names of an
    earlier one. *)
Theorem index_restarts_at_zero output_dir domain set_type
    (w : World F) (self : AudioDataProcessor) files (st : state F)
    (w' : World F) (self' : AudioDataProcessor) files' (st' : state F) :
  let out_path := bucket_path output_dir domain set_type in
  let paths :=
    written_paths
      (new_events st
         (process_domain_files w self files output_dir domain set_type st)) in
  let paths' :=
    written_paths
      (new_events st'
         (process_domain_files w' self' files' output_dir domain set_type st')) in
  paths = wav_paths out_path domain 0 (length paths)
  ∧ wav_name domain 0 = (domain +:+ "_0000.wav")%string
  ∧ (paths = []
     ∨ head paths = Some (joinpath out_path (domain +:+ "_0000.wav")%string))
  ∧ take (Nat.min (length paths) (length paths')) paths
    = take (Nat.min (length paths) (length paths')) paths'.
Proof.
  intros out_path paths paths'.
  destruct (process_domain_files_writes w self files output_dir domain
              set_type st) as (n & Hwr & _).
  destruct (process_domain_files_writes w' self' files' output_dir domain
              set_type st') as (n' & Hwr' & _).
  fold out_path paths in Hwr. fold out_path paths' in Hwr'.
  rewrite Hwr, Hwr', !length_wav_paths. split_and!.
  - done.
  - reflexivity.
  - destruct n; [by left|by right].
  - unfold wav_paths.
    change (take (n `min` n') ((λ i, joinpath out_path (wav_name domain i)) <$> seq 0 n)
            = take (n `min` n') ((λ i, joinpath out_path (wav_name domain i)) <$> seq 0 n')).
    rewrite <- !fmap_take, !take_seq. f_equal. f_equal. lia.
Qed.

End BatcherClaims.

(** ** Properties of the segmenter *)

Section SegmenterClaims.
Context {F : Type} `{NumPy F} `{OsPath}.

Local Arguments sequential_windows : simpl never.
Local Arguments enough_fuel : simpl never.

(** A buffer that is long enough is never announced as skipped. *)
Lemma process_audio_events_long (w : World F) (self : AudioDataProcessor)
    file_path audio sr :
  decode w self file_path = Ok (Some audio, sr) →
  (target_samples self ≤ Z.of_nat (length audio))%Z →
  process_audio_events w self file_path = [EvDecode file_path].
Proof.
  intros Hdec Hlong.
  unfold process_audio_events, process_audio_prints, decode_prints.
  rewrite Hdec.
  destruct (Z.ltb_spec (Z.of_nat (length audio)) (target_samples self)); [lia|].
  reflexivity.
Qed.

(** C4. For a buffer of [L >= target_samples] samples (and a stride
    [target_samples + gap_samples] that is positive), the segmenter first
    peak-normalizes the buffer and subtracts its mean, then attempts exactly
    [(L - target_samples) / (target_samples + gap_samples) + 1] windows of
    [target_samples] samples, at offsets 0, stride, 2 * stride, ...; every
    attempted window fits in the buffer and the next one would not. It
    returns, in order, exactly the attempted windows whose RMS energy is at
    least the floor, so no more segments than attempts. *)
Theorem windows_attempted_and_kept (w : World F) (self : AudioDataProcessor)
    file_path set_type (st : state F) audio sr :
  decode w self file_path = Ok (Some audio, sr) →
  (target_samples self ≤ Z.of_nat (length audio))%Z →
  (0 < target_samples self + gap_samples self)%Z →
  let L := Z.of_nat (length audio) in
  let T := target_samples self in
  let G := gap_samples self in
  let attempts := Z.to_nat ((L - T) / (T + G) + 1) in
  let normalized := librosa_normalize audio in
  let buffer := map (λ x, np_sub x (np_mean normalized)) normalized in
  let starts := map (λ k, (Z.of_nat k * (T + G))%Z) (seq 0 attempts) in
  let windows := map (λ pos, Py.slice buffer pos (pos + T)) starts in
  let keep := λ segment, np_ge (np_sqrt (np_mean (map np_square segment)))
                           energy_floor in
  load_and_process_audio w self file_path set_type st
  = (Ok (map (λ segment, (segment, sr)) (List.filter keep windows)),
     add_events st [EvDecode file_path])
  ∧ length windows = attempts
  ∧ (Z.of_nat attempts = (L - T) / (T + G) + 1)%Z
  ∧ Forall (λ pos, (0 ≤ pos ∧ pos + T ≤ L)%Z) starts
  ∧ (L < Z.of_nat attempts * (T + G) + T)%Z
  ∧ length (List.filter keep windows) ≤ attempts
  ∧ ((0 ≤ T)%Z → Forall (λ segment, Z.of_nat (length segment) = T) windows).
Proof.
  intros Hdec Hlong Hstep L T G attempts normalized buffer starts windows keep.
  assert (0 ≤ (L - T) / (T + G))%Z as Hq by (apply Z.div_pos; lia).
  assert (Z.of_nat attempts = (L - T) / (T + G) + 1)%Z as Hatt
    by (subst attempts; lia).
  assert (length buffer = length audio) as Hlen
    by apply (preprocess_length audio).
  assert (Forall (λ pos, (0 ≤ pos ∧ pos + T ≤ L)%Z) starts) as Hfit.
  { subst starts. apply Forall_forall. intros pos Hin.
    apply list_elem_of_In, in_map_iff in Hin as (k & <- & Hk).
    apply in_seq in Hk.
    pose proof (Z.mul_div_le (L - T) (T + G) Hstep). nia. }
  split_and!.
  - rewrite load_and_process_audio_run.
    rewrite (process_audio_events_long w self file_path audio sr Hdec Hlong).
    f_equal. unfold process_audio. rewrite Hdec. unfold segment_buffer.
    destruct (Z.ltb_spec (Z.of_nat (length audio)) (target_samples self));
      [lia|].
    change (preprocess audio) with buffer.
    rewrite (sequential_windows_fuel self _ buffer sr 0 [] Hstep)
      by apply (enough_fuel_enough self buffer Hstep).
    simpl. f_equal. unfold kept. f_equal. f_equal.
    unfold remaining. rewrite Hlen. fold L T G.
    destruct (Z.leb_spec (0 + T) L); [|lia].
    rewrite Z.sub_0_r. fold attempts. unfold offsets_from.
    rewrite map_map. subst windows starts. rewrite map_map.
    apply map_ext. intros k. unfold window_at. fold T G. f_equal; lia.
  - subst windows starts. by rewrite !length_map, length_seq.
  - exact Hatt.
  - exact Hfit.
  - pose proof (Z.mul_succ_div_gt (L - T) (T + G) Hstep). nia.
  - etrans; [apply List.filter_length_le|].
    subst windows starts. by rewrite !length_map, length_seq.
  - intros HT. subst windows. apply Forall_forall. intros segment Hin.
    apply list_elem_of_In, in_map_iff in Hin as (pos & <- & Hpos).
    apply list_elem_of_In in Hpos.
    rewrite Forall_forall in Hfit. destruct (Hfit pos Hpos) as [Hpos0 Hpos1].
    apply PyFacts.slice_window_length; [done|done|]. rewrite Hlen. exact Hpos1.
Qed.

(** C5. For a buffer shorter than [target_samples]: when the RMS energy of
    the raw buffer is at least the floor the segmenter returns exactly one
    segment, the whole buffer; otherwise it returns no segment (and says
    so). *)
Theorem short_clip_whole_or_nothing (w : World F) (self : AudioDataProcessor)
    file_path set_type (st : state F) audio sr :
  decode w self file_path = Ok (Some audio, sr) →
  (Z.of_nat (length audio) < target_samples self)%Z →
  load_and_process_audio w self file_path set_type st
  = if np_ge (np_sqrt (np_mean (map np_square audio))) energy_floor then
      (Ok [(audio, sr)], add_events st [EvDecode file_path])
    else
      (Ok [],
       add_events st
         [EvDecode file_path;
          EvPrint ("Skipping " +:+ file_path
                     +:+ ": insufficient energy in short clip")]).
Proof.
  intros Hdec Hshort. rewrite load_and_process_audio_run.
  unfold process_audio, process_audio_events, process_audio_prints,
    decode_prints, segment_buffer.
  rewrite Hdec.
  destruct (Z.ltb_spec (Z.of_nat (length audio)) (target_samples self)); [|lia].
  unfold energy_ok, rms_energy.
  by destruct (np_ge (np_sqrt (np_mean (map np_square audio))) energy_floor).
Qed.

End SegmenterClaims.

(** ** Properties of the batcher at one candidate file *)

Section FileClaims.
Context {F : Type} `{NumPy F} `{OsPath}.

Lemma filter_none_fresh (prev : gset string) (files : list string) :
  Forall (λ p, basename p ∈ prev) files →
  filter (λ p, basename p ∉ prev) files = [].
Proof.
  induction 1 as [|p files' Hp Hall IH]; [done|].
  rewrite filter_cons, decide_False by (intros Hn; by apply Hn).
  exact IH.
Qed.

(** C6. When loading (or segmenting) a candidate file raises an exception,
    the loader prints the error with the file path and raises it again, and
    so does [load_and_process_audio]; the batcher catches it at the file,
    prints it, leaves the processed-file map as it was (no record for the
    file), writes nothing, and goes on with the remaining candidates. In a
    whole call, no record is ever created for such a file, wherever it
    stands in the list. *)
Theorem load_error_skips_file (w : World F) (self : AudioDataProcessor)
    out_path domain set_type file_path rest written (st : state F) e :
  process_audio w self file_path = Raise e →
  let loading :=
    [EvDecode file_path;
     EvPrint ("Error loading " +:+ file_path +:+ ": " +:+ e)] in
  let processing := EvPrint ("Error processing " +:+ file_path +:+ ": " +:+ e) in
  let st' := add_events st (loading ++ [processing; processing]) in
  load_audio_file w self file_path st = (Raise e, add_events st loading)
  ∧ load_and_process_audio w self file_path set_type st
    = (Raise e, add_events st (loading ++ [processing]))
  ∧ process_one_file w self out_path domain set_type file_path written st
    = (Ok written, st')
  ∧ processed_files st' = processed_files st
  ∧ written_paths (loading ++ [processing; processing]) = []
  ∧ (basename file_path ∉ previously_processed_files self →
     (Z.of_nat (length written) < target_count self set_type)%Z →
     basename file_path ∉ dom (processed_files st) →
     process_files w self out_path domain set_type (file_path :: rest) written st
     = process_files w self out_path domain set_type rest written st')
  ∧ (∀ files output_dir key rec,
       processed_files
         (snd (process_domain_files w self files output_dir domain set_type st))
         !! key = Some rec →
       full_path rec = file_path →
       processed_files st !! key = Some rec).
Proof.
  intros Hraise loading processing st'.
  pose proof (process_audio_raise w self file_path e Hraise) as Hdec.
  assert (process_audio_events w self file_path = loading ++ [processing])
    as Hevents.
  { unfold process_audio_events, process_audio_prints, decode_prints.
    by rewrite Hdec. }
  assert (process_one_file w self out_path domain set_type file_path written st
          = (Ok written, st')) as Hone.
  { rewrite process_one_file_run, Hraise, Hevents. subst st'.
    by rewrite <- app_assoc. }
  split_and!.
  - rewrite load_audio_file_run. unfold decode_prints. by rewrite Hdec.
  - by rewrite load_and_process_audio_run, Hraise, Hevents.
  - exact Hone.
  - reflexivity.
  - reflexivity.
  - intros Hprev Hroom Hfresh.
    rewrite process_files_reached by done. unfold bind. by rewrite Hone.
  - intros files output_dir key rec Hrec Hpath.
    destruct (process_domain_files_post w self files output_dir domain
                set_type st) as (body & _ & _ & _ & _ & _ & Hnew).
    destruct (Hnew key rec Hrec) as [Hold|(_ & _ & _ & segments & Hok)];
      [done|].
    rewrite Hpath, Hraise in Hok. discriminate.
Qed.

(** C7. A video container without an audio track: the loader returns the
    "no audio" result [(None, 0)] and raises nothing, the file yields zero
    segments, and the batcher, writing nothing, gives the file a record
    whose list of output names is empty, then goes on with the remaining
    candidates. *)
Theorem video_without_audio_gets_empty_record (w : World F)
    (self : AudioDataProcessor) out_path domain set_type file_path rest written
    (st : state F) video :
  suffix_lower file_path = ".mp4"%string →
  open_video w file_path = Ok video →
  video_audio video = None →
  let log :=
    [EvDecode file_path; EvPrint ("No audio stream in " +:+ file_path)] in
  let st' := record_file w file_path [] (add_events st log) in
  load_audio_file w self file_path st = (Ok (None, 0%Z), add_events st log)
  ∧ load_and_process_audio w self file_path set_type st
    = (Ok [], add_events st log)
  ∧ process_one_file w self out_path domain set_type file_path written st
    = (Ok written, st')
  ∧ processed_files st' !! basename file_path
    = Some {| full_path := file_path;
              processed_datetime := datetime_now_isoformat w (clock st);
              processed_filenames := [] |}
  ∧ written_paths (new_events st (Ok written, st')) = []
  ∧ (basename file_path ∉ previously_processed_files self →
     (Z.of_nat (length written) < target_count self set_type)%Z →
     basename file_path ∉ dom (processed_files st) →
     process_files w self out_path domain set_type (file_path :: rest) written st
     = process_files w self out_path domain set_type rest written st').
Proof.
  intros Hext Hopen Hnone log st'.
  assert (decode w self file_path = Ok (None, 0%Z)) as Hdec.
  { unfold decode. by rewrite Hext, Hopen, Hnone. }
  assert (process_audio w self file_path = Ok []) as Hseg.
  { unfold process_audio. by rewrite Hdec. }
  assert (process_audio_events w self file_path = log) as Hevents.
  { unfold process_audio_events, process_audio_prints, decode_prints.
    by rewrite Hdec. }
  assert (process_one_file w self out_path domain set_type file_path written st
          = (Ok written, st')) as Hone.
  { rewrite process_one_file_run, Hseg, Hevents. simpl.
    unfold wav_paths. simpl. by rewrite !app_nil_r. }
  split_and!.
  - rewrite load_audio_file_run. unfold decode_prints. by rewrite Hdec.
  - by rewrite load_and_process_audio_run, Hseg, Hevents.
  - exact Hone.
  - subst st'. unfold record_file. simpl. by rewrite lookup_insert_eq.
  - unfold new_events. subst st'. simpl. by rewrite drop_app_length.
  - intros Hprev Hroom Hfresh.
    rewrite process_files_reached by done. unfold bind. by rewrite Hone.
Qed.

(** C8. A candidate whose basename is in the previously-processed set is
    skipped with no effect at all: the loop goes on with the same list and
    the same state. So a call gives the same result and the same final
    state with these candidates struck off the list, it decodes none of
    them (nor any candidate that already has a record), and a call on
    candidates that were all processed before writes nothing and leaves the
    processed-file map as it was. *)
Theorem previously_processed_files_are_skipped (w : World F)
    (self : AudioDataProcessor) files output_dir domain set_type
    (st : state F) :
  let out_path := bucket_path output_dir domain set_type in
  let r := process_domain_files w self files output_dir domain set_type st in
  (∀ file_path rest written (st1 : state F),
     basename file_path ∈ previously_processed_files self →
     process_files w self out_path domain set_type (file_path :: rest) written st1
     = process_files w self out_path domain set_type rest written st1)
  ∧ r = process_domain_files w self
          (filter (λ p, basename p ∉ previously_processed_files self) files)
          output_dir domain set_type st
  ∧ (∀ p, p ∈ decoded_paths (new_events st r) →
       (basename p ∉ previously_processed_files self)
       ∧ (basename p ∉ dom (processed_files st)))
  ∧ (Forall (λ p, basename p ∈ previously_processed_files self) files →
     r = (Ok {[ bucket_key domain set_type := [] ]},
          add_events st [EvMkdir out_path])).
Proof.
  intros out_path r.
  assert (r = process_domain_files w self
                (filter (λ p, basename p ∉ previously_processed_files self) files)
                output_dir domain set_type st) as Hfilter.
  { subst r. rewrite !process_domain_files_run.
    by rewrite <- process_files_filter. }
  split_and!.
  - intros file_path rest written st1 Hprev. simpl. by rewrite decide_True.
  - exact Hfilter.
  - intros p Hp.
    destruct (process_domain_files_post w self files output_dir domain
                set_type st) as (body & Hev & _ & _ & _ & Hdec & _).
    fold r in Hev. unfold new_events in Hp. rewrite Hev, drop_app_length in Hp.
    by destruct (Hdec p Hp) as (_ & ? & ?).
  - intros Hall. rewrite Hfilter, (filter_none_fresh _ files Hall).
    reflexivity.
Qed.

End FileClaims.

(** ** The assembler: one bucket per source file *)

Section Assembler.
Context {F : Type} `{NumPy F} `{OsPath}.
Variable w : World F.
Variable self : AudioDataProcessor.

Lemma run_inv_start (st : state F) : run_inv st st.
Proof.
  exists []. split_and!.
  - by rewrite app_nil_r.
  - intros i src Hin. by apply elem_of_nil in Hin.
  - intros i j p Hin. by apply elem_of_nil in Hin.
Qed.

Lemma run_inv_same (st0 st st' : state F) :
  events st' = events st →
  processed_files st' = processed_files st →
  run_inv st0 st → run_inv st0 st'.
Proof.
  intros Hev Hpf (tr & Htr & Hsrc & Huniq). exists tr.
  rewrite Hev, Hpf. by split_and!.
Qed.

(** One more call keeps the invariant: its writes come from files without a
    record so far, which therefore wrote nothing in an earlier call. *)
Lemma run_inv_call (st0 st : state F) files output_dir domain set_type :
  run_inv st0 st →
  run_inv st0
    (snd (process_domain_files w self files output_dir domain set_type st)).
Proof.
  intros (tr & Htr & Hsrc & Huniq).
  destruct (process_domain_files_post w self files output_dir domain set_type st)
    as (body & Hev & _ & Hsub & Hcon & _).
  set (st' := snd (process_domain_files w self files output_dir domain
                     set_type st)) in *.
  set (out_path := bucket_path output_dir domain set_type) in *.
  assert (∀ x, x ∈ contributions 0 None (tr ++ EvMkdir out_path :: body) →
               x ∈ contributions 0 None tr
               ∨ ∃ p, x = (S (mkdirs tr), Some p)
                      ∧ (basename p ∉ dom (processed_files st))
                      ∧ basename p ∈ dom (processed_files st')) as Hsplit.
  { intros x Hx. apply contributions_app_elem in Hx as [Hx|[cur' Hx]];
      [by left|right].
    simpl in Hx. by apply (Hcon _ cur'). }
  exists (tr ++ EvMkdir out_path :: body). split_and!.
  - rewrite Hev, Htr. by rewrite app_assoc.
  - intros i src Hin. destruct (Hsplit _ Hin) as [Hold|(p & [= -> ->] & _ & Hp)].
    + destruct (Hsrc i src Hold) as (p & -> & Hp). exists p. split; [done|].
      apply elem_of_dom. eapply lookup_weaken_is_Some; [|exact Hsub].
      by apply elem_of_dom.
    + by exists p.
  - intros i j p Hi Hj.
    destruct (Hsplit _ Hi) as [Hi'|(pi & [= -> ->] & Hfi & _)];
      destruct (Hsplit _ Hj) as [Hj'|(pj & [= -> ->] & Hfj & _)].
    + by apply (Huniq i j p).
    + destruct (Hsrc i (Some pj) Hi') as (q & [= <-] & Hq). done.
    + destruct (Hsrc j (Some pi) Hj') as (q & [= <-] & Hq). done.
    + done.
Qed.

Lemma run_inv_domains (st0 st : state F) output_dir set_type domains splits :
  run_inv st0 st →
  run_inv st0 (snd (process_domains w self output_dir set_type domains splits st)).
Proof.
  revert splits st. induction domains as [|[domain files] rest IH];
    intros splits st Hinv; [done|].
  simpl. unfold bind.
  pose proof (run_inv_call st0 st files output_dir domain set_type Hinv) as Hcall.
  destruct (process_domain_files w self files output_dir domain set_type st)
    as [[split_files|e|] st1]; simpl in *; [by apply IH|done|done].
Qed.

(** The events of a run of the assembler keep the invariant. *)
Lemma create_dataset_splits_inv speech_files music_files env_files output_dir
    (st : state F) :
  run_inv st
    (snd (create_dataset_splits w self speech_files music_files env_files
            output_dir st)).
Proof.
  unfold create_dataset_splits, bind, reset_segment_stats,
    reset_processed_segments.
  set (domains := [("speech"%string, speech_files); ("music"%string, music_files);
                   ("environmental"%string, env_files)]).
  match goal with
  | |- context [process_domains w self output_dir "calibration" domains ∅ ?s] =>
      set (st1 := s);
      assert (run_inv st st1) as Hinv1
        by (apply (run_inv_same st st st1); [done|done|apply run_inv_start])
  end.
  pose proof (run_inv_domains st st1 output_dir "calibration" domains ∅ Hinv1)
    as Hcal.
  destruct (process_domains w self output_dir "calibration" domains ∅ st1)
    as [[dataset_splits|e|] st2]; cbn [fst snd] in *; [|done|done].
  apply run_inv_domains. by apply (run_inv_same st st2).
Qed.

Lemma mkdir_paths_none (tr : list (event F)) : mkdirs tr = 0 → mkdir_paths tr = [].
Proof.
  induction tr as [|ev tr IH]; [done|].
  destruct ev; simpl; try done; exact IH.
Qed.

Lemma mkdir_paths_app (a b : list (event F)) :
  mkdir_paths (a ++ b) = mkdir_paths a ++ mkdir_paths b.
Proof. unfold mkdir_paths. apply omap_app. Qed.

(** A pass that ends has made the directories of its buckets, in order. *)
Lemma process_domains_mkdirs output_dir set_type domains splits (st : state F) :
  let r := process_domains w self output_dir set_type domains splits st in
  ∃ tr,
    events (snd r) = events st ++ tr
    ∧ (∀ result, fst r = Ok result →
         mkdir_paths tr
         = map (λ d, bucket_path output_dir (fst d) set_type) domains).
Proof.
  revert splits st. induction domains as [|[domain files] rest IH];
    intros splits st.
  - exists []. simpl. by rewrite app_nil_r.
  - simpl. unfold bind.
    destruct (process_domain_files_post w self files output_dir domain
                set_type st) as (body & Hev & Hmk & _).
    destruct (process_domain_files w self files output_dir domain set_type st)
      as [[split_files|e|] st1]; simpl in *.
    + destruct (IH (split_files ∪ splits) st1) as (tr & Htr & Hok).
      exists ((EvMkdir (bucket_path output_dir domain set_type) :: body) ++ tr).
      split.
      * rewrite Htr, Hev. by rewrite <- app_assoc.
      * intros result Hr. rewrite mkdir_paths_app. simpl.
        change (omap _ body) with (mkdir_paths body).
        rewrite (mkdir_paths_none body Hmk). simpl. f_equal.
        by apply (Hok result).
    + exists (EvMkdir (bucket_path output_dir domain set_type) :: body).
      by split.
    + exists (EvMkdir (bucket_path output_dir domain set_type) :: body).
      by split.
Qed.

End Assembler.

(** ** Properties of the assembler and of the quota cut *)

Section RunClaims.
Context {F : Type} `{NumPy F} `{OsPath}.

Local Arguments process_audio_events : simpl never.

(** The six buckets, in the order in which [create_dataset_splits] fills
    them: call [k + 1] of [process_domain_files] fills bucket [k]. *)
Lemma create_dataset_splits_mkdirs (w : World F) (self : AudioDataProcessor)
    speech_files music_files env_files output_dir (st : state F) :
  let r := create_dataset_splits w self speech_files music_files env_files
             output_dir st in
  ∀ splits, fst r = Ok splits →
    mkdir_paths (new_events st r)
    = [bucket_path output_dir "speech" "calibration";
       bucket_path output_dir "music" "calibration";
       bucket_path output_dir "environmental" "calibration";
       bucket_path output_dir "speech" "evaluation";
       bucket_path output_dir "music" "evaluation";
       bucket_path output_dir "environmental" "evaluation"].
Proof.
  intros r. subst r.
  unfold create_dataset_splits, bind, reset_segment_stats,
    reset_processed_segments, new_events.
  set (domains := [("speech"%string, speech_files); ("music"%string, music_files);
                   ("environmental"%string, env_files)]).
  match goal with
  | |- context [process_domains w self output_dir "calibration" domains ∅ ?s] =>
      set (st1 := s)
  end.
  destruct (process_domains_mkdirs w self output_dir "calibration" domains ∅ st1)
    as (tr1 & Hev1 & Hok1).
  destruct (process_domains w self output_dir "calibration" domains ∅ st1)
    as [[dataset_splits|e|] st2]; cbn [fst snd] in *; [|done|done].
  match goal with
  | |- context [process_domains w self output_dir "evaluation" domains
                  dataset_splits ?s] => set (st3 := s)
  end.
  destruct (process_domains_mkdirs w self output_dir "evaluation" domains
              dataset_splits st3) as (tr2 & Hev2 & Hok2).
  destruct (process_domains w self output_dir "evaluation" domains
              dataset_splits st3) as [[result|e|] st4]; cbn [fst snd] in *;
    [|done|done].
  intros splits _. rewrite Hev2. subst st3. cbn [events]. rewrite Hev1.
  subst st1. cbn [events]. rewrite <- app_assoc, drop_app_length.
  rewrite mkdir_paths_app, (Hok1 _ eq_refl), (Hok2 _ eq_refl). reflexivity.
Qed.

End RunClaims.

(** ** The quota cut at a file boundary *)

Section QuotaCut.
Context {F : Type} `{NumPy F} `{OsPath}.

Local Arguments process_audio_events : simpl never.

(** C2, as the code has it. With calibration quota 2 for domain ["music"]
    and candidates [f1], [f2], [f3], the first two yielding one valid
    segment each: the batcher writes [music_0000.wav] from [f1] and
    [music_0001.wav] from [f2] and records both; at [f3] the quota test at
    the top of the loop body ends the loop, so [f3] is not decoded and gets
    no record. *)
Theorem quota_cut_before_third_file (w : World F) (self : AudioDataProcessor)
    f1 f2 f3 segment1 sr1 segment2 sr2 output_dir (st : state F) :
  calibration_samples self = 2%Z →
  process_audio w self f1 = Ok [(segment1, sr1)] →
  process_audio w self f2 = Ok [(segment2, sr2)] →
  basename f1 ∉ previously_processed_files self →
  basename f2 ∉ previously_processed_files self →
  basename f1 ∉ dom (processed_files st) →
  basename f2 ∉ dom (processed_files st) →
  basename f1 ≠ basename f2 →
  let out_path := bucket_path output_dir "music" "calibration" in
  let path0 := joinpath out_path "music_0000.wav" in
  let path1 := joinpath out_path "music_0001.wav" in
  let st1 :=
    record_file w f1 ["music_0000.wav"%string]
      (add_events st
         (EvMkdir out_path
            :: process_audio_events w self f1 ++ [EvSfWrite path0 segment1 sr1])) in
  let st2 :=
    record_file w f2 ["music_0001.wav"%string]
      (add_events st1
         (process_audio_events w self f2 ++ [EvSfWrite path1 segment2 sr2])) in
  process_domain_files w self [f1; f2; f3] output_dir "music" "calibration" st
  = (Ok {[ "music_calibration"%string := [path0; path1] ]}, st2)
  ∧ decoded_paths (new_events st (Ok tt, st2)) = [f1; f2]
  ∧ processed_files st2
    = <[basename f2 :=
          {| full_path := f2;
             processed_datetime := datetime_now_isoformat w (S (clock st));
             processed_filenames := ["music_0001.wav"%string] |}]>
        (<[basename f1 :=
             {| full_path := f1;
                processed_datetime := datetime_now_isoformat w (clock st);
                processed_filenames := ["music_0000.wav"%string] |}]>
           (processed_files st))
  ∧ (basename f3 ≠ basename f1 → basename f3 ≠ basename f2 →
     basename f3 ∉ dom (processed_files st) →
     processed_files st2 !! basename f3 = None).
Proof.
  intros Hquota Hseg1 Hseg2 Hprev1 Hprev2 Hfresh1 Hfresh2 Hne
    out_path path0 path1 st1 st2.
  assert (target_count self "calibration" = 2%Z) as Htarget by exact Hquota.
  split_and!.
  - rewrite process_domain_files_run. fold out_path.
    enough (process_files w self out_path "music" "calibration" [f1; f2; f3] []
              (add_events st [EvMkdir out_path]) = (Ok [path0; path1], st2))
      as -> by reflexivity.
    rewrite process_files_reached; [|done|simpl; lia|done].
    unfold bind at 1. rewrite process_one_file_run, Hseg1.
    assert (room self "calibration" [] = 2) as -> by (unfold room; simpl; lia).
    cbn [length Nat.min take seq map app wav_paths write_events].
    change (wav_name "music" 0) with "music_0000.wav"%string.
    fold path0. rewrite add_events_app. cbn [app]. fold st1.
    rewrite process_files_reached; [|done|simpl; lia|].
    2:{ subst st1. unfold record_file. cbn [processed_files add_events].
        rewrite dom_insert_L, elem_of_union, elem_of_singleton.
        intros [Heq|Hin]; [by apply Hne|done]. }
    unfold bind at 1. rewrite process_one_file_run, Hseg2.
    assert (room self "calibration" [path0] = 1) as ->
      by (unfold room; simpl; lia).
    cbn [length Nat.min take seq map app wav_paths write_events].
    change (wav_name "music" 1) with "music_0001.wav"%string.
    fold path1. fold st2.
    cbn [process_files]. case_decide; [reflexivity|].
    destruct (Z.leb_spec (target_count self "calibration")
                (Z.of_nat (length [path0; path1]))); [reflexivity|].
    simpl in *. lia.
  - unfold new_events. subst st2 st1. unfold record_file.
    cbn [snd events add_events]. rewrite <- app_assoc, drop_app_length.
    rewrite !decoded_paths_app.
    change (decoded_paths
              (EvMkdir out_path
                 :: process_audio_events w self f1
                      ++ [EvSfWrite path0 segment1 sr1]))
      with (decoded_paths
              (process_audio_events w self f1 ++ [EvSfWrite path0 segment1 sr1])).
    rewrite !decoded_paths_app, !decoded_paths_process_audio_events.
    reflexivity.
  - reflexivity.
  - intros Hne1 Hne2 Hfresh3. subst st2 st1. unfold record_file.
    cbn [processed_files add_events].
    rewrite !lookup_insert_ne by done. by apply not_elem_of_dom.
Qed.

End QuotaCut.

(** ** Scenarios, run *)

Module ScenarioFacts.
Import Float64 Posix Scenario.

(** The 25-second buffer of the specification: two windows are attempted,
    at offsets 0 and 529200; a third would start at 1058400 and end past
    the 1102500 samples. *)
Example windows_of_25_seconds :
  remaining default_config 1102500 0 = 2
  ∧ offsets_from default_config 0 2 = [0; 529200]%Z
  ∧ (1102500 < 1058400 + target_samples default_config)%Z.
Proof. by vm_compute. Qed.

Example segments_of_the_files :
  process_audio world config "in/a.wav" = Ok [(loud, 4%Z)]
  ∧ process_audio world config "in/quiet.wav" = Ok []
  ∧ process_audio world config "in/long.wav"
    = Ok [([1; -1; 1; -1]%float, 4%Z)]
  ∧ process_audio world config "in/bad.wav" = Raise "unknown format"
  ∧ process_audio world config "in/mute.mp4" = Ok [].
Proof. by vm_compute. Qed.

(** One file list for both passes: the files that filled the calibration
    bucket are skipped by the evaluation pass, which writes nothing. *)
Example evaluation_skips_calibration_files :
  ∃ splits st',
    create_dataset_splits world config ["in/long.wav"; "in/a.wav"] [] [] "out"
      (initial_state float) = (Ok splits, st')
    ∧ splits !! "speech_calibration"%string
      = Some ["out/calibration/speech/speech_0000.wav";
              "out/calibration/speech/speech_0001.wav"]%string
    ∧ splits !! "speech_evaluation"%string = Some []
    ∧ contributions 0 None (events st')
      = [(1, Some "in/long.wav"); (1, Some "in/a.wav")]%string.
Proof.
  eexists _, _. split; [vm_compute; reflexivity|]. by vm_compute.
Qed.

(** C2, as the specification states it, fails. Quota 2, three candidates
    that yield one valid segment each: the first two are written as
    [music_0000.wav] and [music_0001.wav], and the third file has no record
    at all, so no record with an empty list of output names. *)
Lemma third_file_gets_no_record :
  calibration_samples config = 2%Z
  ∧ Forall (λ p, process_audio world config p = Ok [(loud, 4%Z)]) three_files
  ∧ fst (process_domain_files world config three_files "out" "music"
           "calibration" (initial_state float))
    = Ok {[ "music_calibration"%string :=
              ["out/calibration/music/music_0000.wav";
               "out/calibration/music/music_0001.wav"]%string ]}
  ∧ ¬ ∃ rec,
        processed_files
          (snd (process_domain_files world config three_files "out" "music"
                  "calibration" (initial_state float)))
          !! basename "in/c.wav" = Some rec
        ∧ processed_filenames rec = [].
Proof.
  split_and!.
  - reflexivity.
  - repeat constructor; by vm_compute.
  - by vm_compute.
  - intros (rec & Hrec & _). vm_compute in Hrec. discriminate.
Qed.

Lemma quota_cut_before_third_file_witness :
  calibration_samples config = 2%Z
  ∧ process_audio world config "in/a.wav" = Ok [(loud, 4%Z)]
  ∧ process_audio world config "in/b.wav" = Ok [(loud, 4%Z)]
  ∧ fst (process_domain_files world config three_files "out" "music"
           "calibration" (initial_state float))
    = Ok {[ "music_calibration"%string :=
              [joinpath (bucket_path "out" "music" "calibration")
                 "music_0000.wav";
               joinpath (bucket_path "out" "music" "calibration")
                 "music_0001.wav"] ]}
  ∧ processed_files
      (snd (process_domain_files world config three_files "out" "music"
              "calibration" (initial_state float)))
      !! basename "in/c.wav" = None.
Proof.
  assert (process_audio world config "in/a.wav" = Ok [(loud, 4%Z)]) as Ha
    by (vm_compute; reflexivity).
  assert (process_audio world config "in/b.wav" = Ok [(loud, 4%Z)]) as Hb
    by (vm_compute; reflexivity).
  destruct (quota_cut_before_third_file world config "in/a.wav" "in/b.wav"
              "in/c.wav" loud 4%Z loud 4%Z "out" (initial_state float)
              eq_refl Ha Hb)
    as (Hrun & _ & _ & Hnone).
  - intros Hin. vm_compute in Hin. discriminate.
  - intros Hin. vm_compute in Hin. discriminate.
  - simpl. rewrite dom_empty_L. apply not_elem_of_empty.
  - simpl. rewrite dom_empty_L. apply not_elem_of_empty.
  - vm_compute. discriminate.
  - split_and!; [reflexivity|exact Ha|exact Hb| |].
    + unfold three_files. rewrite Hrun. reflexivity.
    + unfold three_files. rewrite Hrun. apply Hnone.
      * vm_compute. discriminate.
      * vm_compute. discriminate.
      * simpl. rewrite dom_empty_L. apply not_elem_of_empty.
Defined.

Lemma quota_never_exceeded_witness :
  (0 ≤ target_count config "calibration")%Z
  ∧ (Z.of_nat
       (length
          (written_paths
             (new_events (initial_state float)
                (process_domain_files world config three_files "out" "music"
                   "calibration" (initial_state float)))))
     ≤ target_count config "calibration")%Z.
Proof.
  assert (0 ≤ target_count config "calibration")%Z as Hquota
    by (vm_compute; discriminate).
  split; [exact Hquota|].
  exact (proj1 (quota_never_exceeded world config three_files "out" "music"
                  "calibration" (initial_state float) Hquota)).
Defined.

Lemma windows_attempted_and_kept_witness :
  decode world config "in/long.wav" = Ok (Some long, 4%Z)
  ∧ (target_samples config ≤ Z.of_nat (length long))%Z
  ∧ (0 < target_samples config + gap_samples config)%Z
  ∧ load_and_process_audio world config "in/long.wav" "calibration"
      (initial_state float)
    = (Ok [([1; -1; 1; -1]%float, 4%Z)],
       add_events (initial_state float) [EvDecode "in/long.wav"]).
Proof.
  assert (decode world config "in/long.wav" = Ok (Some long, 4%Z)) as Hdec
    by reflexivity.
  assert (target_samples config ≤ Z.of_nat (length long))%Z as Hlong
    by (vm_compute; discriminate).
  assert (0 < target_samples config + gap_samples config)%Z as Hstep
    by reflexivity.
  split_and!; [exact Hdec|exact Hlong|exact Hstep|].
  rewrite (proj1 (windows_attempted_and_kept world config "in/long.wav"
                    "calibration" (initial_state float) long 4%Z
                    Hdec Hlong Hstep)).
  vm_compute. reflexivity.
Defined.

Lemma short_clip_whole_or_nothing_witness :
  decode world config "in/a.wav" = Ok (Some loud, 4%Z)
  ∧ (Z.of_nat (length loud) < target_samples config)%Z
  ∧ load_and_process_audio world config "in/a.wav" "calibration"
      (initial_state float)
    = (Ok [(loud, 4%Z)], add_events (initial_state float) [EvDecode "in/a.wav"])
  ∧ fst (load_and_process_audio world config "in/quiet.wav" "calibration"
           (initial_state float)) = Ok [].
Proof.
  assert (decode world config "in/a.wav" = Ok (Some loud, 4%Z)) as Hdec
    by reflexivity.
  assert (decode world config "in/quiet.wav" = Ok (Some quiet, 4%Z)) as Hdec'
    by reflexivity.
  assert (Z.of_nat 2 < target_samples config)%Z as Hshort by reflexivity.
  split_and!; [exact Hdec|exact Hshort| |].
  - rewrite (short_clip_whole_or_nothing world config "in/a.wav" "calibration"
               (initial_state float) loud 4%Z Hdec Hshort).
    vm_compute. reflexivity.
  - rewrite (short_clip_whole_or_nothing world config "in/quiet.wav"
               "calibration" (initial_state float) quiet 4%Z Hdec' Hshort).
    vm_compute. reflexivity.
Defined.

Lemma load_error_skips_file_witness :
  process_audio world config "in/bad.wav" = Raise "unknown format"
  ∧ process_files world config "out/calibration/music" "music" "calibration"
      ["in/bad.wav"; "in/a.wav"]%string [] (initial_state float)
    = process_files world config "out/calibration/music" "music" "calibration"
        ["in/a.wav"%string] []
        (add_events (initial_state float)
           [EvDecode "in/bad.wav";
            EvPrint "Error loading in/bad.wav: unknown format";
            EvPrint "Error processing in/bad.wav: unknown format";
            EvPrint "Error processing in/bad.wav: unknown format"])
  ∧ processed_files
      (snd (process_files world config "out/calibration/music" "music"
              "calibration" ["in/bad.wav"; "in/a.wav"]%string []
              (initial_state float)))
      !! "bad.wav"%string = None.
Proof.
  assert (process_audio world config "in/bad.wav" = Raise "unknown format")
    as Hraise by reflexivity.
  destruct (load_error_skips_file world config "out/calibration/music" "music"
              "calibration" "in/bad.wav" ["in/a.wav"%string] []
              (initial_state float) "unknown format" Hraise)
    as (_ & _ & _ & _ & _ & Hstep & _).
  split_and!; [exact Hraise| |].
  - apply Hstep.
    + intros Hin. vm_compute in Hin. discriminate.
    + reflexivity.
    + simpl. rewrite dom_empty_L. apply not_elem_of_empty.
  - rewrite Hstep.
    + vm_compute. reflexivity.
    + intros Hin. vm_compute in Hin. discriminate.
    + reflexivity.
    + simpl. rewrite dom_empty_L. apply not_elem_of_empty.
Defined.

Lemma video_without_audio_gets_empty_record_witness :
  suffix_lower "in/mute.mp4" = ".mp4"%string
  ∧ open_video world "in/mute.mp4" = Ok {| video_audio := None |}
  ∧ process_one_file world config "out/calibration/music" "music" "calibration"
      "in/mute.mp4" [] (initial_state float)
    = (Ok [],
       record_file world "in/mute.mp4" []
         (add_events (initial_state float)
            [EvDecode "in/mute.mp4";
             EvPrint "No audio stream in in/mute.mp4"]))
  ∧ processed_files
      (snd (process_one_file world config "out/calibration/music" "music"
              "calibration" "in/mute.mp4" [] (initial_state float)))
      !! "mute.mp4"%string
    = Some {| full_path := "in/mute.mp4";
              processed_datetime := "T0";
              processed_filenames := [] |}.
Proof.
  assert (suffix_lower "in/mute.mp4" = ".mp4"%string) as Hext by reflexivity.
  assert (open_video world "in/mute.mp4" = Ok {| video_audio := None |})
    as Hopen by reflexivity.
  destruct (video_without_audio_gets_empty_record world config
              "out/calibration/music" "music" "calibration" "in/mute.mp4" [] []
              (initial_state float) {| video_audio := None |}
              Hext Hopen eq_refl)
    as (_ & _ & Hone & Hrec & _).
  split_and!; [exact Hext|exact Hopen|exact Hone|].
  rewrite Hone. exact Hrec.
Defined.

Lemma previously_processed_files_are_skipped_witness :
  Forall (λ p, basename p ∈ previously_processed_files config)
    ["archive/old.wav"; "in/old.wav"]%string
  ∧ process_domain_files world config ["archive/old.wav"; "in/old.wav"]%string
      "out" "music" "calibration" (initial_state float)
    = (Ok {[ "music_calibration"%string := [] ]},
       add_events (initial_state float) [EvMkdir "out/calibration/music"]).
Proof.
  assert (Forall (λ p, basename p ∈ previously_processed_files config)
            ["archive/old.wav"; "in/old.wav"]%string) as Hall
    by (repeat constructor; by apply elem_of_singleton).
  split; [exact Hall|].
  exact (proj2 (proj2 (proj2
           (previously_processed_files_are_skipped world config
              ["archive/old.wav"; "in/old.wav"]%string "out" "music"
              "calibration" (initial_state float)))) Hall).
Defined.

End ScenarioFacts.

(** ** More on the batcher: what the loop does beyond the quota bound *)

Section BatcherMore.
Context {F : Type} `{NumPy F} `{OsPath}.
Variable w : World F.
Variable self : AudioDataProcessor.

Local Arguments process_audio_events : simpl never.

(** Once the quota is met the loop does nothing more, whatever is left in
    the list. *)
Lemma process_files_full out_path domain set_type files written (st : state F) :
  (target_count self set_type ≤ Z.of_nat (length written))%Z →
  process_files w self out_path domain set_type files written st
  = (Ok written, st).
Proof.
  intros Hfull. induction files as [|file_path rest IH]; [done|].
  simpl. case_decide; [exact IH|].
  by destruct (Z.leb_spec (target_count self set_type)
                 (Z.of_nat (length written))); [|lia].
Qed.

Lemma process_one_file_dom out_path domain set_type file_path written
    (st : state F) :
  dom (processed_files st)
  ⊆ dom (processed_files
           (snd (process_one_file w self out_path domain set_type file_path
                   written st))).
Proof.
  rewrite process_one_file_run.
  destruct (process_audio w self file_path) as [segments|e|]; simpl; [|done..].
  rewrite dom_insert_L. apply union_subseteq_r.
Qed.

(** Candidates that already have a record can be struck off the list: the
    loop gives the same result and the same state without them. *)
Lemma process_files_strike (D : gset string) out_path domain set_type files
    written (st : state F) :
  D ⊆ dom (processed_files st) →
  process_files w self out_path domain set_type files written st
  = process_files w self out_path domain set_type
      (filter (λ p, basename p ∉ D) files) written st.
Proof.
  revert written st. induction files as [|file_path rest IH];
    intros written st HD; [done|].
  rewrite filter_cons. case_decide as Hin.
  - simpl. case_decide; [by apply IH|].
    destruct (target_count self set_type <=? Z.of_nat (length written))%Z;
      [done|].
    unfold bind at 1 3. unfold get_processed_files.
    case_decide; [by apply IH|].
    unfold bind.
    pose proof (process_one_file_dom out_path domain set_type file_path
                  written st) as Hdom.
    destruct (process_one_file w self out_path domain set_type file_path
                written st) as [[written'|e|] st1]; [|done..].
    apply IH. simpl in Hdom. set_solver.
  - simpl. case_decide; [by apply IH|].
    destruct (Z.leb_spec (target_count self set_type)
                (Z.of_nat (length written))) as [Hfull|Hroom].
    + symmetry. by apply process_files_full.
    + unfold bind at 1. unfold get_processed_files.
      rewrite decide_True by set_solver. by apply IH.
Qed.

(** The files a loop decodes are candidates, in the order of the list, each
    no more often than the list has it. *)
Lemma process_files_decodes_in_order out_path domain set_type files written
    (st : state F) :
  ∃ tr,
    events (snd (process_files w self out_path domain set_type files written st))
    = events st ++ tr
    ∧ decoded_paths tr `sublist_of` files.
Proof.
  revert written st. induction files as [|file_path rest IH]; intros written st.
  - exists []. simpl. by rewrite app_nil_r.
  - assert (∀ r : outcome (list string) * state F,
              (∃ tr, events (snd r) = events st ++ tr
                     ∧ decoded_paths tr `sublist_of` rest) →
              ∃ tr, events (snd r) = events st ++ tr
                    ∧ decoded_paths tr `sublist_of` file_path :: rest) as Hskip.
    { intros r (tr & Hev & Hsub). exists tr. split; [done|].
      by apply sublist_cons. }
    simpl. case_decide; [apply Hskip, IH|].
    destruct (target_count self set_type <=? Z.of_nat (length written))%Z.
    { exists []. simpl. rewrite app_nil_r. split; [done|apply sublist_nil_l]. }
    unfold bind at 1. unfold get_processed_files.
    case_decide; [apply Hskip, IH|].
    unfold bind. rewrite process_one_file_run.
    destruct (process_audio w self file_path) as [segments|e|];
      cbv beta iota zeta.
    + set (k := Nat.min (length segments) (room self set_type written)).
      match goal with
      | |- context [process_files _ _ _ _ _ rest ?l ?s] =>
          destruct (IH l s) as (tr & Hev & Hsub)
      end.
      exists ((process_audio_events w self file_path
                 ++ write_events out_path domain (length written)
                      (take k segments)) ++ tr).
      split.
      * rewrite Hev. simpl. by rewrite <- app_assoc.
      * rewrite !decoded_paths_app, decoded_paths_process_audio_events,
          decoded_paths_write_events. simpl. by apply sublist_skip.
    + match goal with
      | |- context [process_files _ _ _ _ _ rest ?l ?s] =>
          destruct (IH l s) as (tr & Hev & Hsub)
      end.
      exists ((process_audio_events w self file_path
                 ++ [EvPrint ("Error processing " +:+ file_path +:+ ": " +:+ e)])
                ++ tr).
      split.
      * rewrite Hev. simpl. by rewrite <- app_assoc.
      * rewrite !decoded_paths_app, decoded_paths_process_audio_events.
        simpl. by apply sublist_skip.
    + exists (process_audio_events w self file_path). split; [done|].
      rewrite decoded_paths_process_audio_events.
      apply sublist_skip, sublist_nil_l.
Qed.

End BatcherMore.

Section BatcherExtras.
Context {F : Type} `{NumPy F} `{OsPath}.

Local Arguments process_audio_events : simpl never.
Local Arguments sequential_windows : simpl never.
Local Arguments enough_fuel : simpl never.

(** X1. A candidate whose basename already has a record in
    [self.processed_files] when a call starts makes no difference to the
    call: result and final state are those of the call on the list without
    such candidates. *)
Theorem recorded_candidates_can_be_struck (w : World F)
    (self : AudioDataProcessor) files output_dir domain set_type
    (st : state F) :
  process_domain_files w self files output_dir domain set_type st
  = process_domain_files w self
      (filter (λ p, basename p ∉ dom (processed_files st)) files)
      output_dir domain set_type st.
Proof.
  rewrite !process_domain_files_run.
  by rewrite <- (process_files_strike w self (dom (processed_files st))).
Qed.

(** X2. One call decodes candidates in the order of the list and never goes
    back: the decoded paths are a sublist of the candidate list. *)
Theorem candidates_decoded_in_order (w : World F) (self : AudioDataProcessor)
    files output_dir domain set_type (st : state F) :
  decoded_paths
    (new_events st
       (process_domain_files w self files output_dir domain set_type st))
  `sublist_of` files.
Proof.
  rewrite process_domain_files_run. unfold new_events. cbn [snd].
  destruct (process_files_decodes_in_order w self
              (bucket_path output_dir domain set_type) domain set_type files []
              (add_events st [EvMkdir (bucket_path output_dir domain set_type)]))
    as (tr & Hev & Hsub).
  rewrite Hev. simpl. by rewrite <- app_assoc, drop_app_length.
Qed.

(** X3. The quota cut inside a file. A file that segments into more pieces
    than the quota leaves room for is written only up to the quota: exactly
    [min (number of segments) room] files, numbered on from the count so
    far. The file is recorded all the same, with exactly these names, so no
    later call of the run decodes it again: the segments beyond the cut are
    given up. *)
Theorem quota_cut_inside_a_file (w : World F) (self : AudioDataProcessor)
    out_path domain set_type file_path written (st : state F) segments :
  process_audio w self file_path = Ok segments →
  let k := Nat.min (length segments) (room self set_type written) in
  let r := process_one_file w self out_path domain set_type file_path written
             st in
  fst r = Ok (written ++ wav_paths out_path domain (length written) k)
  ∧ written_paths (new_events st r)
    = wav_paths out_path domain (length written) k
  ∧ processed_files (snd r) !! basename file_path
    = Some {| full_path := file_path;
              processed_datetime := datetime_now_isoformat w (clock st);
              processed_filenames :=
                map (wav_name domain) (seq (length written) k) |}
  ∧ (∀ (st2 : state F) files output_dir' domain' set_type',
       processed_files (snd r) ⊆ processed_files st2 →
       file_path
       ∉ decoded_paths
           (new_events st2
              (process_domain_files w self files output_dir' domain' set_type'
                 st2))).
Proof.
  intros Hseg k r. subst r. rewrite process_one_file_run, Hseg. fold k.
  cbn [fst snd]. split_and!.
  - reflexivity.
  - unfold new_events, record_file. cbn [snd events add_events].
    rewrite drop_app_length, written_paths_app,
      written_paths_process_audio_events, written_paths_write_events.
    simpl. rewrite length_take. f_equal. subst k. lia.
  - unfold record_file. cbn [processed_files]. by rewrite lookup_insert_eq.
  - intros st2 files output_dir' domain' set_type' Hsub Hin.
    destruct (process_domain_files_post w self files output_dir' domain'
                set_type' st2) as (body & Hev & _ & _ & _ & Hdec & _).
    unfold new_events in Hin. rewrite Hev, drop_app_length in Hin.
    destruct (Hdec file_path Hin) as (_ & _ & Hfresh). apply Hfresh.
    apply elem_of_dom. eapply lookup_weaken_is_Some; [|exact Hsub].
    unfold record_file. cbn [processed_files]. rewrite lookup_insert_eq.
    by eexists.
Qed.

(** X4. A stride [target_samples + gap_samples] that is not positive: on the
    first buffer that is long enough for one window the window loop never
    ends, whatever the fuel; [load_and_process_audio] never returns, and
    the batcher hangs on the file without writing or recording anything. *)
Theorem nonpositive_stride_hangs (w : World F) (self : AudioDataProcessor)
    out_path domain set_type file_path written (st : state F) audio sr :
  decode w self file_path = Ok (Some audio, sr) →
  (target_samples self ≤ Z.of_nat (length audio))%Z →
  (target_samples self + gap_samples self ≤ 0)%Z →
  (∀ fuel, sequential_windows self fuel (preprocess audio) sr 0 [] = None)
  ∧ load_and_process_audio w self file_path set_type st
    = (Hang, add_events st [EvDecode file_path])
  ∧ process_one_file w self out_path domain set_type file_path written st
    = (Hang, add_events st [EvDecode file_path])
  ∧ ∀ rest,
      basename file_path ∉ previously_processed_files self →
      (Z.of_nat (length written) < target_count self set_type)%Z →
      basename file_path ∉ dom (processed_files st) →
      process_files w self out_path domain set_type (file_path :: rest) written
        st
      = (Hang, add_events st [EvDecode file_path]).
Proof.
  intros Hdec Hlong Hstep.
  assert (∀ fuel, sequential_windows self fuel (preprocess audio) sr 0 [] = None)
    as Hnone.
  { intros fuel. apply sequential_windows_hang; [done|].
    rewrite preprocess_length. lia. }
  assert (process_audio w self file_path = Hang) as Hseg.
  { unfold process_audio, segment_buffer. rewrite Hdec.
    destruct (Z.ltb_spec (Z.of_nat (length audio)) (target_samples self));
      [lia|].
    by rewrite Hnone. }
  pose proof (process_audio_events_long w self file_path audio sr Hdec Hlong)
    as Hevents.
  assert (process_one_file w self out_path domain set_type file_path written st
          = (Hang, add_events st [EvDecode file_path])) as Hone
    by (by rewrite process_one_file_run, Hseg, Hevents).
  split_and!.
  - exact Hnone.
  - by rewrite load_and_process_audio_run, Hseg, Hevents.
  - exact Hone.
  - intros rest Hprev Hroom Hfresh.
    rewrite process_files_reached by done. unfold bind. by rewrite Hone.
Qed.

End BatcherExtras.

(** ** More on the assembler: records, manifest, termination *)

Section AssemblerMore.
Context {F : Type} `{NumPy F} `{OsPath}.
Variable w : World F.
Variable self : AudioDataProcessor.

(** How [self.processed_files] may change while candidates among [files]
    are processed: no record is removed or changed, and every new record is
    filed under the basename of its own path, a basename that was not
    processed before, for a candidate that loaded and segmented without an
    exception. *)
Definition records_grow (files : list string) (st st' : state F) : Prop :=
  processed_files st ⊆ processed_files st'
  ∧ ∀ key rec, processed_files st' !! key = Some rec →
      processed_files st !! key = Some rec
      ∨ (key = basename (full_path rec)
         ∧ (key ∉ previously_processed_files self)
         ∧ full_path rec ∈ files
         ∧ ∃ segments, process_audio w self (full_path rec) = Ok segments).

Lemma records_grow_refl files (st st' : state F) :
  processed_files st' = processed_files st → records_grow files st st'.
Proof. intros Hpf. unfold records_grow. rewrite Hpf. split; [done|]. by left. Qed.

Lemma records_grow_trans files1 files2 files (st1 st2 st3 : state F) :
  files1 ⊆ files → files2 ⊆ files →
  records_grow files1 st1 st2 → records_grow files2 st2 st3 →
  records_grow files st1 st3.
Proof.
  intros Hf1 Hf2 [Hsub1 Hnew1] [Hsub2 Hnew2]. split; [by etrans|].
  intros key rec Hrec.
  destruct (Hnew2 key rec Hrec) as [Hold|(? & ? & ? & ?)].
  - destruct (Hnew1 key rec Hold) as [Hold'|(? & ? & ? & ?)]; [by left|].
    right. split_and!; try done. by apply Hf1.
  - right. split_and!; try done. by apply Hf2.
Qed.

Lemma records_grow_call files output_dir domain set_type (st : state F) :
  records_grow files st
    (snd (process_domain_files w self files output_dir domain set_type st)).
Proof.
  destruct (process_domain_files_post w self files output_dir domain set_type st)
    as (body & _ & _ & Hsub & _ & _ & Hnew).
  by split.
Qed.

Lemma records_grow_domains output_dir set_type domains splits (st : state F) :
  records_grow (concat (map snd domains)) st
    (snd (process_domains w self output_dir set_type domains splits st)).
Proof.
  revert splits st. induction domains as [|[domain files] rest IH];
    intros splits st; [by apply records_grow_refl|].
  cbn [process_domains map concat snd]. unfold bind.
  pose proof (records_grow_call files output_dir domain set_type st) as Hcall.
  assert (files ⊆ files ++ concat (map snd rest)) as Hf1
    by (intros x Hx; apply elem_of_app; by left).
  assert (concat (map snd rest) ⊆ files ++ concat (map snd rest)) as Hf2
    by (intros x Hx; apply elem_of_app; by right).
  destruct (process_domain_files w self files output_dir domain set_type st)
    as [[split_files|e|] st1]; cbn [fst snd] in *.
  - eapply records_grow_trans; [exact Hf1|exact Hf2|exact Hcall|apply IH].
  - eapply records_grow_trans; [exact Hf1|exact Hf2|exact Hcall|].
    by apply records_grow_refl.
  - eapply records_grow_trans; [exact Hf1|exact Hf2|exact Hcall|].
    by apply records_grow_refl.
Qed.

Lemma records_grow_run speech_files music_files env_files output_dir
    (st : state F) :
  records_grow (speech_files ++ music_files ++ env_files) st
    (snd (create_dataset_splits w self speech_files music_files env_files
            output_dir st)).
Proof.
  unfold create_dataset_splits, bind, reset_segment_stats,
    reset_processed_segments.
  set (domains := [("speech"%string, speech_files); ("music"%string, music_files);
                   ("environmental"%string, env_files)]).
  assert (concat (map snd domains) = speech_files ++ music_files ++ env_files)
    as Hall by (simpl; by rewrite app_nil_r).
  match goal with
  | |- context [process_domains w self output_dir "calibration" domains ∅ ?s] =>
      set (st1 := s)
  end.
  pose proof (records_grow_domains output_dir "calibration" domains ∅ st1)
    as Hcal.
  rewrite Hall in Hcal.
  assert (records_grow (speech_files ++ music_files ++ env_files) st st1)
    as Hst1 by (by apply records_grow_refl).
  destruct (process_domains w self output_dir "calibration" domains ∅ st1)
    as [[dataset_splits|e|] st2]; cbn [fst snd] in *.
  - match goal with
    | |- context [process_domains w self output_dir "evaluation" domains
                    dataset_splits ?s] => set (st3 := s)
    end.
    pose proof (records_grow_domains output_dir "evaluation" domains
                  dataset_splits st3) as Heval.
    rewrite Hall in Heval.
    assert (records_grow (speech_files ++ music_files ++ env_files) st2 st3)
      as Hst3 by (by apply records_grow_refl).
    eapply records_grow_trans; [done|done|exact Hst1|].
    eapply records_grow_trans; [done|done|exact Hcal|].
    eapply records_grow_trans; [done|done|exact Hst3|exact Heval].
  - eapply records_grow_trans; [done|done|exact Hst1|exact Hcal].
  - eapply records_grow_trans; [done|done|exact Hst1|exact Hcal].
Qed.

(** With a positive stride and decoders that always answer, a pass and a
    whole run return a manifest. *)
Lemma process_domains_returns output_dir set_type domains splits (st : state F) :
  (0 < target_samples self + gap_samples self)%Z →
  (∀ p, decode w self p ≠ Hang) →
  ∃ result,
    fst (process_domains w self output_dir set_type domains splits st)
    = Ok result.
Proof.
  intros Hstep Hdec. revert splits st.
  induction domains as [|[domain files] rest IH]; intros splits st;
    [by eexists|].
  cbn [process_domains]. unfold bind.
  destruct (process_domain_files_returns w self files output_dir domain
              set_type st Hstep Hdec) as [split_files Hret].
  destruct (process_domain_files w self files output_dir domain set_type st)
    as [[split_files'|e|] st1]; cbn [fst] in Hret; try discriminate.
  apply IH.
Qed.

End AssemblerMore.

Section AssemblerExtras.
Context {F : Type} `{NumPy F} `{OsPath}.

(** X5. A run of the assembler only adds records: every record of
    [self.processed_files] is still there, unchanged, when the run ends
    (also when it hangs), and every new record is filed under the basename
    of its own path, a basename outside the previously-processed set, for a
    candidate of one of the three lists that loaded and segmented without
    an exception. *)
Theorem run_only_adds_records (w : World F) (self : AudioDataProcessor)
    speech_files music_files env_files output_dir (st : state F) :
  let st' :=
    snd (create_dataset_splits w self speech_files music_files env_files
           output_dir st) in
  processed_files st ⊆ processed_files st'
  ∧ ∀ key rec, processed_files st' !! key = Some rec →
      processed_files st !! key = Some rec
      ∨ (key = basename (full_path rec)
         ∧ (key ∉ previously_processed_files self)
         ∧ full_path rec ∈ speech_files ++ music_files ++ env_files
         ∧ ∃ segments, process_audio w self (full_path rec) = Ok segments).
Proof.
  apply (records_grow_run w self speech_files music_files env_files output_dir
           st).
Qed.

Ltac run_call w self :=
  match goal with
  | |- context [process_domain_files w self ?files ?out ?d ?s ?st] =>
      let n := fresh "n" in
      let Hn := fresh "Hn" in
      let Hok := fresh "Hok" in
      let sp := fresh "split_files" in
      destruct (process_domain_files_writes w self files out d s st)
        as (n & _ & Hn & Hok & _);
      destruct (process_domain_files w self files out d s st)
        as [[sp|?|] ?]; cbn [fst snd] in *;
      [specialize (Hok _ eq_refl); subst sp|discriminate..]
  end.

(** X6. The manifest of a run that ends has exactly the six keys
    [{domain}_{split}], and under each key the paths
    [{output_dir}/{split}/{domain}/{domain}_0000.wav], [..0001.wav], ... of
    that bucket, no more than the quota of the split. *)
Theorem manifest_has_six_buckets (w : World F) (self : AudioDataProcessor)
    speech_files music_files env_files output_dir (st : state F) splits :
  fst (create_dataset_splits w self speech_files music_files env_files
         output_dir st) = Ok splits →
  dom splits
  = {[ "speech_calibration"; "music_calibration"; "environmental_calibration";
       "speech_evaluation"; "music_evaluation"; "environmental_evaluation" ]}%string
  ∧ ∀ domain set_type,
      domain ∈ ["speech"; "music"; "environmental"]%string →
      set_type ∈ ["calibration"; "evaluation"]%string →
      ∃ n,
        splits !! (domain +:+ "_" +:+ set_type)%string
        = Some (map (λ index,
                       joinpath (joinpath (joinpath output_dir set_type) domain)
                         (domain +:+ "_" +:+ Py.format_04d index +:+ ".wav")%string)
                  (seq 0 n))
        ∧ (Z.of_nat n ≤ Z.max 0 (target_count self set_type))%Z.
Proof.
  unfold create_dataset_splits, reset_segment_stats, reset_processed_segments.
  cbn [process_domains]. unfold bind, ret.
  do 6 run_call w self.
  intros [= <-]. unfold bucket_key. cbn [String.append].
  split.
  - rewrite !dom_union_L, !dom_singleton_L, dom_empty_L. set_solver.
  - intros domain set_type Hd Hs.
    repeat (apply elem_of_cons in Hd as [->|Hd]);
      [..|by apply elem_of_nil in Hd];
      (repeat (apply elem_of_cons in Hs as [->|Hs]);
       [..|by apply elem_of_nil in Hs]);
      cbn [String.append].
    + exists n. split; [|done]. by simplify_map_eq.
    + exists n2. split; [|done]. by simplify_map_eq.
    + exists n0. split; [|done]. by simplify_map_eq.
    + exists n3. split; [|done]. by simplify_map_eq.
    + exists n1. split; [|done]. by simplify_map_eq.
    + exists n4. split; [|done]. by simplify_map_eq.
Qed.

(** X7. With a positive stride and decoders that always answer (with a
    buffer, with "no audio" or with an exception), a run of the assembler
    ends and returns a manifest: no exception of a file leaves the run. *)
Theorem run_returns_manifest (w : World F) (self : AudioDataProcessor)
    speech_files music_files env_files output_dir (st : state F) :
  (0 < target_samples self + gap_samples self)%Z →
  (∀ p, decode w self p ≠ Hang) →
  ∃ splits,
    fst (create_dataset_splits w self speech_files music_files env_files
           output_dir st) = Ok splits.
Proof.
  intros Hstep Hdec.
  unfold create_dataset_splits, bind, reset_segment_stats,
    reset_processed_segments.
  set (domains := [("speech"%string, speech_files); ("music"%string, music_files);
                   ("environmental"%string, env_files)]).
  match goal with
  | |- context [process_domains w self output_dir "calibration" domains ∅ ?s] =>
      set (st1 := s)
  end.
  destruct (process_domains_returns w self output_dir "calibration" domains ∅
              st1 Hstep Hdec) as [dataset_splits Hcal].
  destruct (process_domains w self output_dir "calibration" domains ∅ st1)
    as [[dataset_splits'|e|] st2]; cbn [fst] in Hcal; try discriminate.
  apply process_domains_returns; done.
Qed.

End AssemblerExtras.

(** ** The statistics script *)

Module HelperFacts.
Import Helper.

Lemma prefix_spec (needle s : string) :
  String.prefix needle s = true ↔ ∃ b, s = needle +:+ b.
Proof.
  revert s. induction needle as [|c needle IH]; intros s.
  - split; [intros _; by exists s|intros _; by destruct s].
  - destruct s as [|c' s]; simpl; [split; [done|intros [b [=]]]|].
    destruct (ascii_dec c c') as [->|Hne].
    + rewrite IH. split; intros [b Hb]; exists b; [by rewrite Hb|by injection Hb].
    + split; [done|]. intros [b [= Hc _]]. by destruct Hne.
Qed.

(** [contains] is the substring test. *)
Lemma contains_spec (needle s : string) :
  contains needle s = true ↔ ∃ a b, s = a +:+ needle +:+ b.
Proof.
  induction s as [|c s IH].
  - cbn [contains]. destruct (String.prefix needle "") eqn:Hp.
    + apply prefix_spec in Hp as [b Hb]. split; [|done]. intros _.
      by exists EmptyString, b.
    + split; [done|]. intros (a & b & Hab).
      destruct a as [|? ?]; [|done]. simpl in Hab.
      assert (String.prefix needle "" = true) as Hq
        by (apply prefix_spec; by exists b).
      congruence.
  - cbn [contains]. destruct (String.prefix needle (String c s)) eqn:Hp.
    + apply prefix_spec in Hp as [b Hb]. split; [|done]. intros _.
      by exists EmptyString, b.
    + rewrite IH. split.
      * intros (a & b & ->). by exists (String c a), b.
      * intros (a & b & Hab). destruct a as [|c' a].
        -- simpl in Hab.
           assert (String.prefix needle (String c s) = true) as Hq
             by (apply prefix_spec; by exists b).
           congruence.
        -- injection Hab as _ ->. by exists a, b.
Qed.

Lemma count_file_set set_counts item :
  count_file set_counts item
  = if negb (length (processed_filenames (snd item)) =? 0)
    then increment (set_of_path (full_path (snd item))) set_counts
    else set_counts.
Proof.
  unfold count_file, set_of_path.
  destruct (negb _); [|done].
  destruct (contains "music" _); [done|].
  by destruct (contains "environmental" _).
Qed.

Lemma set_of_path_cases path :
  set_of_path path = "music"%string
  ∨ set_of_path path = "environmental"%string
  ∨ set_of_path path = "speech"%string.
Proof.
  unfold set_of_path. destruct (contains "music" path); [by left|].
  destruct (contains "environmental" path); [right; by left|right; by right].
Qed.

Lemma files_in_set_cons key item items :
  files_in_set key (item :: items)
  = if negb (length (processed_filenames (snd item)) =? 0)
       && String.eqb (set_of_path (full_path (snd item))) key
    then item :: files_in_set key items
    else files_in_set key items.
Proof. reflexivity. Qed.

(** The loop from any starting counters: the counter of [key] grows by the
    number of files in that set, and is created only when one is found. *)
Lemma fold_count_file items set_counts key :
  fold_left count_file items set_counts !! key
  = if length (files_in_set key items) =? 0 then set_counts !! key
    else Some (default 0 (set_counts !! key) + length (files_in_set key items)).
Proof.
  revert set_counts. induction items as [|item items IH]; intros set_counts;
    [done|].
  cbn [fold_left]. rewrite IH, files_in_set_cons, count_file_set.
  destruct (negb (length (processed_filenames (snd item)) =? 0)); [|done].
  cbn [andb]. unfold increment.
  destruct (String.eqb_spec (set_of_path (full_path (snd item))) key)
    as [->|Hne].
  - rewrite lookup_insert_eq. cbn [length default].
    destruct (Nat.eqb_spec (length (files_in_set key items)) 0) as [->|Hn].
    + simpl. f_equal. lia.
    + simpl. f_equal. lia.
  - by rewrite lookup_insert_ne.
Qed.

Lemma filter_length_Permutation {A} (f : A → bool) (l l' : list A) :
  l ≡ₚ l' → length (List.filter f l) = length (List.filter f l').
Proof.
  induction 1 as [|x l l' _ IH|x y l|l l' l'' _ IH1 _ IH2]; simpl.
  - done.
  - destruct (f x); simpl; by rewrite IH.
  - by destruct (f x), (f y).
  - by rewrite IH1.
Qed.

(** X8. What [helper.py] counts. After the loop the counter of a set is the
    number of ledger entries that have at least one output file and whose
    path puts them in that set: ["music"] when the path contains "music",
    else ["environmental"] when it contains "environmental", else
    ["speech"] (the path decides, not the domain the file was processed
    under); a set without such an entry has no counter. Entries without
    output files are not counted, no other counter exists, and the three
    counters add up to the number of entries with output files. *)
Theorem helper_counts (items : list (string * ProcessedFileRecord)) :
  (∀ key,
     set_counts items !! key
     = if length (files_in_set key items) =? 0 then None
       else Some (length (files_in_set key items)))
  ∧ dom (set_counts items) ⊆ {[ "music"; "environmental"; "speech" ]}%string
  ∧ default 0 (set_counts items !! "music"%string)
    + default 0 (set_counts items !! "environmental"%string)
    + default 0 (set_counts items !! "speech"%string)
    = length
        (List.filter
           (λ item, negb (length (processed_filenames (snd item)) =? 0)) items).
Proof.
  assert (∀ key,
            set_counts items !! key
            = if length (files_in_set key items) =? 0 then None
              else Some (length (files_in_set key items))) as Hcount.
  { intros key. unfold set_counts. rewrite fold_count_file, lookup_empty.
    by destruct (length (files_in_set key items) =? 0). }
  assert (∀ key, default 0 (set_counts items !! key)
                 = length (files_in_set key items)) as Hread.
  { intros key. rewrite Hcount.
    by destruct (Nat.eqb_spec (length (files_in_set key items)) 0)
      as [Hzero|Hpos]; [rewrite Hzero|]. }
  split_and!.
  - exact Hcount.
  - intros key Hkey. apply elem_of_dom in Hkey as [n Hn].
    rewrite Hcount in Hn.
    destruct (Nat.eqb_spec (length (files_in_set key items)) 0) as [|Hpos];
      [done|].
    destruct (files_in_set key items) as [|item rest] eqn:Hset; [done|].
    assert (In item (files_in_set key items)) as Hin
      by (rewrite Hset; by left).
    apply filter_In in Hin as [_ Hin].
    apply andb_true_iff in Hin as [_ Heq]. apply String.eqb_eq in Heq as <-.
    destruct (set_of_path_cases (full_path (snd item))) as [-> | [-> | ->]];
      set_solver.
  - rewrite !Hread. clear Hcount Hread.
    induction items as [|item items IH]; [done|].
    rewrite !files_in_set_cons. cbn [List.filter].
    destruct (negb (length (processed_filenames (snd item)) =? 0));
      cbn [andb]; [|exact IH].
    destruct (set_of_path_cases (full_path (snd item))) as [-> | [-> | ->]];
      cbn [String.eqb Ascii.eqb Bool.eqb length]; simpl; lia.
Qed.

(** X9. The counters do not depend on the order in which the ledger lists
    its entries. *)
Theorem helper_counts_any_order (items items' : list (string * ProcessedFileRecord)) :
  items ≡ₚ items' → set_counts items = set_counts items'.
Proof.
  intros Hperm. apply map_eq. intros key. unfold set_counts.
  rewrite !fold_count_file, lookup_empty. unfold files_in_set.
  by rewrite (filter_length_Permutation _ items items' Hperm).
Qed.

End HelperFacts.

(** ** The entry point *)

Section MainFacts.
Context {F : Type} `{NumPy F} `{OsPath}.

Lemma init_main (sources : Sources) :
  Init.init 44100 10 300 1000 2 (dom (ledger sources))
  = Ok (main_processor sources).
Proof. vm_compute. reflexivity. Qed.

Lemma print_statistics_run names splits (st : state F) :
  ∃ msgs, print_statistics names splits st
          = (Ok tt, add_events st (map EvPrint msgs)).
Proof.
  revert st. induction names as [|name rest IH]; intros st.
  - exists []. simpl. by rewrite add_events_nil.
  - simpl. destruct (splits !! name) as [files|]; [|apply IH].
    unfold bind, print, emit.
    destruct (IH (add_events st
                    [EvPrint (name +:+ ": " +:+ Py.str_of_nat (length files)
                                +:+ " files")]))
      as [msgs ->].
    exists ((name +:+ ": " +:+ Py.str_of_nat (length files) +:+ " files")
              :: msgs)%string.
    by rewrite add_events_app.
Qed.

(** The files a stretch of a run decodes: candidates among [files], none
    with a previously-processed basename. *)
Definition decodes_only (self : AudioDataProcessor) (files : list string)
    (st st' : state F) : Prop :=
  ∃ tr,
    events st' = events st ++ tr
    ∧ ∀ p, p ∈ decoded_paths tr →
        p ∈ files ∧ basename p ∉ previously_processed_files self.

Lemma decodes_only_refl self files (st st' : state F) :
  events st' = events st → decodes_only self files st st'.
Proof.
  intros Hev. exists []. rewrite Hev, app_nil_r. split; [done|].
  intros p Hp. by apply elem_of_nil in Hp.
Qed.

Lemma decodes_only_trans self files1 files2 files (st1 st2 st3 : state F) :
  files1 ⊆ files → files2 ⊆ files →
  decodes_only self files1 st1 st2 → decodes_only self files2 st2 st3 →
  decodes_only self files st1 st3.
Proof.
  intros Hf1 Hf2 (tr1 & Hev1 & Hd1) (tr2 & Hev2 & Hd2).
  exists (tr1 ++ tr2). split; [by rewrite Hev2, Hev1, app_assoc|].
  intros p Hp. rewrite decoded_paths_app in Hp.
  apply elem_of_app in Hp as [Hp|Hp].
  - destruct (Hd1 p Hp). split; [by apply Hf1|done].
  - destruct (Hd2 p Hp). split; [by apply Hf2|done].
Qed.

Lemma decodes_only_call (w : World F) self files output_dir domain set_type
    (st : state F) :
  decodes_only self files st
    (snd (process_domain_files w self files output_dir domain set_type st)).
Proof.
  destruct (process_domain_files_post w self files output_dir domain set_type st)
    as (body & Hev & _ & _ & _ & Hdec & _).
  exists (EvMkdir (bucket_path output_dir domain set_type) :: body).
  split; [done|]. intros p Hp.
  by destruct (Hdec p Hp) as (? & ? & _).
Qed.

Lemma decodes_only_domains (w : World F) self output_dir set_type domains
    splits (st : state F) :
  decodes_only self (concat (map snd domains)) st
    (snd (process_domains w self output_dir set_type domains splits st)).
Proof.
  revert splits st. induction domains as [|[domain files] rest IH];
    intros splits st; [by apply decodes_only_refl|].
  cbn [process_domains map concat snd]. unfold bind.
  pose proof (decodes_only_call w self files output_dir domain set_type st)
    as Hcall.
  assert (files ⊆ files ++ concat (map snd rest)) as Hf1
    by (intros x Hx; apply elem_of_app; by left).
  assert (concat (map snd rest) ⊆ files ++ concat (map snd rest)) as Hf2
    by (intros x Hx; apply elem_of_app; by right).
  destruct (process_domain_files w self files output_dir domain set_type st)
    as [[split_files|e|] st1]; cbn [fst snd] in *.
  - eapply decodes_only_trans; [exact Hf1|exact Hf2|exact Hcall|apply IH].
  - eapply decodes_only_trans; [exact Hf1|exact Hf2|exact Hcall|].
    by apply decodes_only_refl.
  - eapply decodes_only_trans; [exact Hf1|exact Hf2|exact Hcall|].
    by apply decodes_only_refl.
Qed.

Lemma decodes_only_run (w : World F) self speech_files music_files env_files
    output_dir (st : state F) :
  decodes_only self (speech_files ++ music_files ++ env_files) st
    (snd (create_dataset_splits w self speech_files music_files env_files
            output_dir st)).
Proof.
  unfold create_dataset_splits, bind, reset_segment_stats,
    reset_processed_segments.
  set (domains := [("speech"%string, speech_files); ("music"%string, music_files);
                   ("environmental"%string, env_files)]).
  assert (concat (map snd domains) = speech_files ++ music_files ++ env_files)
    as Hall by (simpl; by rewrite app_nil_r).
  match goal with
  | |- context [process_domains w self output_dir "calibration" domains ∅ ?s] =>
      set (st1 := s)
  end.
  pose proof (decodes_only_domains w self output_dir "calibration" domains ∅ st1)
    as Hcal.
  rewrite Hall in Hcal.
  assert (decodes_only self (speech_files ++ music_files ++ env_files) st st1)
    as Hst1 by (by apply decodes_only_refl).
  destruct (process_domains w self output_dir "calibration" domains ∅ st1)
    as [[dataset_splits|e|] st2]; cbn [fst snd] in *.
  - match goal with
    | |- context [process_domains w self output_dir "evaluation" domains
                    dataset_splits ?s] => set (st3 := s)
    end.
    pose proof (decodes_only_domains w self output_dir "evaluation" domains
                  dataset_splits st3) as Heval.
    rewrite Hall in Heval.
    assert (decodes_only self (speech_files ++ music_files ++ env_files) st2 st3)
      as Hst3 by (by apply decodes_only_refl).
    eapply decodes_only_trans; [done|done|exact Hst1|].
    eapply decodes_only_trans; [done|done|exact Hcal|].
    eapply decodes_only_trans; [done|done|exact Hst3|exact Heval].
  - eapply decodes_only_trans; [done|done|exact Hst1|exact Hcal].
  - eapply decodes_only_trans; [done|done|exact Hst1|exact Hcal].
Qed.

End MainFacts.

Section MainExtras.
Context {F : Type} `{NumPy F} `{OsPath}.

(** The candidates [main] hands to the assembler. *)
Definition main_candidates (fs : FileSystem) (sources : Sources) : list string :=
  collect_new_files fs sources
    (default [] (data_directories sources !! "speech"%string))
  ++ collect_new_files fs sources
       (default [] (data_directories sources !! "music"%string))
  ++ collect_new_files fs sources
       (default [] (data_directories sources !! "environmental"%string)).

(** [main] is a run of the assembler with a fresh processor, followed by
    prints and the two files. *)
Lemma main_run (fs : FileSystem) (w : World F) (sources : Sources)
    (st : state F) :
  let st1 :=
    {| processed_files := ∅; segment_stats := []; processed_segments := ∅;
       events := events st; clock := clock st |} in
  let r :=
    create_dataset_splits w (main_processor sources)
      (collect_new_files fs sources
         (default [] (data_directories sources !! "speech"%string)))
      (collect_new_files fs sources
         (default [] (data_directories sources !! "music"%string)))
      (collect_new_files fs sources
         (default [] (data_directories sources !! "environmental"%string)))
      OUTPUT_DIR st1 in
  ∃ msgs,
    main fs w sources st
    = match fst r with
      | Ok dataset_splits =>
          (Ok {| dataset_splits_json := dataset_splits;
                 data_sources_json :=
                   {| data_directories := data_directories sources;
                      ledger := processed_files (snd r) ∪ ledger sources |} |},
           add_events (snd r) (map EvPrint msgs))
      | Raise e => (Raise e, snd r)
      | Hang => (Hang, snd r)
      end.
Proof.
  intros st1 r. unfold main. rewrite init_main.
  unfold bind at 1. unfold lift. unfold bind at 1. unfold new_processor.
  fold st1. unfold bind at 1. fold r.
  destruct r as [[dataset_splits|e|] st2]; cbn [fst snd];
    [|by exists []..].
  unfold bind at 1. unfold print, emit. unfold bind at 1.
  destruct (print_statistics_run split_names dataset_splits
              (add_events st2 [EvPrint (String "010" "Dataset Statistics:")]))
    as [msgs ->].
  exists (String "010" "Dataset Statistics:" :: msgs).
  unfold bind, get_processed_files, ret. by rewrite add_events_app.
Qed.

(** X10. What [main] does to the ledger. When [main] ends, the ledger it
    writes back keeps every entry it read, unchanged, and keeps the
    directories; every entry it adds is filed under the basename of its own
    path, a basename that was not a key of the ledger, for a collected
    candidate that loaded and segmented without an exception. *)
Theorem main_keeps_ledger (fs : FileSystem) (w : World F) (sources : Sources)
    (st : state F) out :
  fst (main fs w sources st) = Ok out →
  data_directories (data_sources_json out) = data_directories sources
  ∧ ledger sources ⊆ ledger (data_sources_json out)
  ∧ ∀ key rec, ledger (data_sources_json out) !! key = Some rec →
      ledger sources !! key = Some rec
      ∨ ((key ∉ dom (ledger sources))
         ∧ key = basename (full_path rec)
         ∧ full_path rec ∈ main_candidates fs sources
         ∧ ∃ segments,
             process_audio w (main_processor sources) (full_path rec)
             = Ok segments).
Proof.
  destruct (main_run fs w sources st) as [msgs ->].
  match goal with
  | |- context [create_dataset_splits w ?self ?sp ?mu ?en ?o ?s] =>
      pose proof (records_grow_run w self sp mu en o s) as [_ Hnew];
      destruct (create_dataset_splits w self sp mu en o s)
        as [[dataset_splits|e|] st2]; cbn [fst snd] in *; [|done..]
  end.
  intros [= <-]. cbn [data_sources_json data_directories ledger].
  assert (∀ key rec, processed_files st2 !! key = Some rec →
            (key ∉ dom (ledger sources))
            ∧ key = basename (full_path rec)
            ∧ full_path rec ∈ main_candidates fs sources
            ∧ ∃ segments,
                process_audio w (main_processor sources) (full_path rec)
                = Ok segments) as Hfresh.
  { intros key rec Hrec.
    destruct (Hnew key rec Hrec) as [Hold|(? & ? & ? & ?)]; [done|].
    by split_and!. }
  assert (processed_files st2 ##ₘ ledger sources) as Hdisj.
  { apply map_disjoint_spec. intros key rec rec' Hrec Hold.
    destruct (Hfresh key rec Hrec) as (Hkey & _). apply Hkey.
    apply elem_of_dom. by eexists. }
  split_and!.
  - reflexivity.
  - by apply map_union_subseteq_r.
  - intros key rec Hrec. apply lookup_union_Some in Hrec as [Hrec|Hrec];
      [|by left|done].
    right. by apply Hfresh.
Qed.

(** X11. Whatever candidates [main] collects (its own filter compares full
    paths with the basenames that key the ledger), it never decodes a file
    whose basename is a key of the ledger, and it decodes only collected
    candidates. *)
Theorem main_skips_ledger_files (fs : FileSystem) (w : World F)
    (sources : Sources) (st : state F) p :
  p ∈ decoded_paths (new_events st (main fs w sources st)) →
  p ∈ main_candidates fs sources
  ∧ (p ∉ dom (ledger sources))
  ∧ basename p ∉ dom (ledger sources).
Proof.
  destruct (main_run fs w sources st) as [msgs ->].
  match goal with
  | |- context [create_dataset_splits w ?self ?sp ?mu ?en ?o ?s] =>
      pose proof (decodes_only_run w self sp mu en o s) as (tr & Hev & Hdec);
      destruct (create_dataset_splits w self sp mu en o s)
        as [[dataset_splits|e|] st2]; cbn [fst snd events] in *
  end.
  all: unfold new_events; cbn [snd events add_events]; rewrite Hev;
    rewrite <- ?app_assoc, drop_app_length, ?decoded_paths_app,
      ?decoded_paths_prints, ?app_nil_r;
    intros Hp; destruct (Hdec p Hp) as [Hcand Hbase];
    (split_and!; [exact Hcand| |exact Hbase]).
  all: unfold main_candidates, collect_new_files in Hcand;
    rewrite !elem_of_app in Hcand;
    assert (∀ dirs,
              p ∈ concat
                    (map (λ directory,
                            if path_exists fs directory
                            then filter (λ f, f ∉ dom (ledger sources))
                                   (collect_files fs directory AUDIO_EXTENSIONS)
                            else []) dirs) →
              p ∉ dom (ledger sources)) as Hfilter
      by (intros dirs Hin;
          apply list_elem_of_In, in_concat in Hin as (l & Hl & Hpl);
          apply in_map_iff in Hl as (d & <- & _);
          apply list_elem_of_In in Hpl;
          destruct (path_exists fs d);
          [by apply list_elem_of_filter in Hpl as [? _]
          |by apply elem_of_nil in Hpl]);
    destruct Hcand as [Hc|[Hc|Hc]]; by apply Hfilter in Hc.
Qed.

(** X12. With decoders that always answer, [main] ends and writes its two
    files: the processor it builds has a positive stride, and no exception
    of a file leaves the run. *)
Theorem main_returns (fs : FileSystem) (w : World F) (sources : Sources)
    (st : state F) :
  (∀ p, decode w (main_processor sources) p ≠ Hang) →
  ∃ out, fst (main fs w sources st) = Ok out.
Proof.
  intros Hdec. destruct (main_run fs w sources st) as [msgs ->].
  assert (0 < target_samples (main_processor sources)
              + gap_samples (main_processor sources))%Z as Hstep by done.
  match goal with
  | |- context [create_dataset_splits w ?self ?sp ?mu ?en ?o ?s] =>
      unfold create_dataset_splits, bind, reset_segment_stats,
        reset_processed_segments;
      set (domains := [("speech"%string, sp); ("music"%string, mu);
                       ("environmental"%string, en)])
  end.
  match goal with
  | |- context [process_domains w ?self ?o "calibration" domains ∅ ?s] =>
      destruct (process_domains_returns w self o "calibration" domains ∅ s
                  Hstep Hdec) as [dataset_splits Hcal];
      destruct (process_domains w self o "calibration" domains ∅ s)
        as [[dataset_splits'|e|] st2]; cbn [fst snd] in *; try discriminate
  end.
  match goal with
  | |- context [process_domains w ?self ?o "evaluation" domains ?d ?s] =>
      destruct (process_domains_returns w self o "evaluation" domains d s
                  Hstep Hdec) as [result Heval];
      destruct (process_domains w self o "evaluation" domains d s)
        as [[result'|e|] st3]; cbn [fst snd] in *; try discriminate
  end.
  by eexists.
Qed.

End MainExtras.

(** ** The constructor *)

Module InitFacts.
Import Init.

Lemma int_of_product_not_finite (n : Z) (x : float) :
  Prim2SF x = S754_nan ∨ (∃ s, Prim2SF x = S754_infinity s) →
  ∃ e, int_of_product n x = Raise e.
Proof.
  intros Hx. unfold int_of_product.
  destruct (float_of_int n) as [f|e|] eqn:Hf.
  - unfold int_of_float. rewrite mul_spec. unfold SF64mul.
    destruct Hx as [->|[s ->]].
    + destruct (Prim2SF f); by eexists.
    + destruct (Prim2SF f); by eexists.
  - by eexists.
  - unfold float_of_int in Hf.
    by destruct (binary_normalize prec emax n 0 false).
Qed.

(** X13. A target duration or a gap duration that is NaN or infinite never
    builds a processor: the constructor raises ([int] of a NaN or of an
    infinity, or the rate itself does not fit a float). *)
Theorem init_rejects_non_finite_durations (target_sr : Z)
    (calibration_samples eval_samples : Z) (duration : float)
    (previously_processed_files : gset string) (bad : float) :
  bad = nan ∨ bad = infinity ∨ bad = neg_infinity →
  (∃ e, init target_sr bad calibration_samples eval_samples duration
          previously_processed_files = Raise e)
  ∧ (∃ e, init target_sr duration calibration_samples eval_samples bad
            previously_processed_files = Raise e).
Proof.
  intros Hbad.
  assert (Prim2SF bad = S754_nan ∨ (∃ s, Prim2SF bad = S754_infinity s))
    as Hsf.
  { destruct Hbad as [-> | [-> | ->]];
      [left; reflexivity|right; by exists false|right; by exists true]. }
  unfold init. split.
  - destruct (int_of_product_not_finite target_sr bad Hsf) as [e ->].
    by eexists.
  - destruct (int_of_product_not_finite target_sr bad Hsf) as [e ->].
    destruct (int_of_product target_sr duration) as [samples|e'|] eqn:Hd;
      [by eexists|by eexists|].
    unfold int_of_product, int_of_float, float_of_int in Hd.
    destruct (binary_normalize prec emax target_sr 0 false);
      try discriminate;
      match type of Hd with
      | context [Prim2SF ?y] => by destruct (Prim2SF y)
      end.
Qed.

Lemma init_rejects_non_finite_durations_witness :
  nan = nan
  ∧ ∃ e, init 44100 nan 300 1000 2 ∅ = Raise e.
Proof.
  split; [reflexivity|].
  exact (proj1 (init_rejects_non_finite_durations 44100 300 1000 2 ∅ nan
                  (or_introl eq_refl))).
Defined.

End InitFacts.


(** ** Records and files written agree *)

Section RecordsAndFiles.
Context {F : Type} `{NumPy F} `{OsPath}.
Variable w : World F.
Variable self : AudioDataProcessor.

Local Arguments process_audio_events : simpl never.

Lemma wav_name_path_written out_path domain start k name
    (tr : list (event F)) :
  written_paths tr = wav_paths out_path domain start k →
  name ∈ map (wav_name domain) (seq start k) →
  joinpath out_path name ∈ written_paths tr.
Proof.
  intros -> Hin. apply list_elem_of_In, in_map_iff in Hin as (i & <- & Hi).
  apply list_elem_of_In, in_map_iff. by exists i.
Qed.

(** Every name a new record lists is the name of a file written since
    [st]. *)
Definition records_written (out_path : string) (st : state F)
    (r : outcome (list string) * state F) : Prop :=
  ∃ tr,
    events (snd r) = events st ++ tr
    ∧ ∀ key rec,
        processed_files (snd r) !! key = Some rec →
        processed_files st !! key = Some rec
        ∨ ∀ name, name ∈ processed_filenames rec →
            joinpath out_path name ∈ written_paths tr.

Lemma records_written_stop out_path written (st : state F) :
  records_written out_path st (Ok written, st).
Proof. exists []. simpl. rewrite app_nil_r. split; [done|]. by left. Qed.

Lemma process_files_records_written out_path domain set_type files written
    (st : state F) :
  records_written out_path st
    (process_files w self out_path domain set_type files written st).
Proof.
  revert written st. induction files as [|file_path rest IH]; intros written st.
  - apply records_written_stop.
  - simpl. case_decide; [apply IH|].
    destruct (target_count self set_type <=? Z.of_nat (length written))%Z;
      [apply records_written_stop|].
    unfold bind at 1. unfold get_processed_files.
    case_decide; [apply IH|].
    unfold bind. rewrite process_one_file_run.
    destruct (process_audio w self file_path) as [segments|e|];
      cbv beta iota zeta.
    + set (k := Nat.min (length segments) (room self set_type written)).
      set (block := process_audio_events w self file_path
                      ++ write_events out_path domain (length written)
                           (take k segments)).
      match goal with
      | |- context [process_files _ _ _ _ _ rest ?l ?s] =>
          destruct (IH l s) as (tr & Hev & Hrec)
      end.
      assert (written_paths block
              = wav_paths out_path domain (length written) k) as Hblock.
      { subst block. rewrite written_paths_app,
          written_paths_process_audio_events, written_paths_write_events.
        simpl. rewrite length_take. f_equal. subst k. lia. }
      exists (block ++ tr). split.
      * rewrite Hev. simpl. by rewrite <- app_assoc.
      * intros key rec Hk. destruct (Hrec key rec Hk) as [Hold|Hnew].
        -- unfold record_file in Hold. cbn [processed_files add_events] in Hold.
           apply lookup_insert_Some in Hold as [[<- <-]|[_ Hold]]; [|by left].
           right. intros name Hname. cbn [processed_filenames] in Hname.
           rewrite written_paths_app. apply elem_of_app. left.
           by apply (wav_name_path_written out_path domain (length written) k).
        -- right. intros name Hname. rewrite written_paths_app.
           apply elem_of_app. right. by apply Hnew.
    + match goal with
      | |- context [process_files _ _ _ _ _ rest ?l ?s] =>
          destruct (IH l s) as (tr & Hev & Hrec)
      end.
      exists ((process_audio_events w self file_path
                 ++ [EvPrint ("Error processing " +:+ file_path +:+ ": " +:+ e)])
                ++ tr).
      split.
      * rewrite Hev. simpl. by rewrite <- app_assoc.
      * intros key rec Hk. destruct (Hrec key rec Hk) as [Hold|Hnew];
          [by left|].
        right. intros name Hname. rewrite written_paths_app.
        apply elem_of_app. right. by apply Hnew.
    + exists (process_audio_events w self file_path). split; [done|].
      intros key rec Hk. by left.
Qed.

End RecordsAndFiles.

Section RecordsAndFilesExtras.
Context {F : Type} `{NumPy F} `{OsPath}.

(** X14. The records never list a file that was not written: every output
    name in a record that a call of the batcher creates is the name of a
    file the call wrote in the directory of its bucket. *)
Theorem recorded_names_were_written (w : World F) (self : AudioDataProcessor)
    files output_dir domain set_type (st : state F) key rec name :
  let r := process_domain_files w self files output_dir domain set_type st in
  processed_files (snd r) !! key = Some rec →
  processed_files st !! key = None →
  name ∈ processed_filenames rec →
  joinpath (joinpath (joinpath output_dir set_type) domain) name
  ∈ written_paths (new_events st r).
Proof.
  intros r Hrec Hnew Hname. subst r.
  rewrite process_domain_files_run in *. cbn [snd] in *.
  fold (bucket_path output_dir domain set_type).
  destruct (process_files_records_written w self
              (bucket_path output_dir domain set_type) domain set_type files []
              (add_events st [EvMkdir (bucket_path output_dir domain set_type)]))
    as (tr & Hev & Hrecs).
  unfold new_events. cbn [snd]. rewrite Hev. cbn [events add_events].
  rewrite <- app_assoc, drop_app_length.
  destruct (Hrecs key rec Hrec) as [Hold|Hwritten].
  - cbn [processed_files add_events] in Hold. congruence.
  - rewrite written_paths_app. apply elem_of_app. right. by apply Hwritten.
Qed.

(** X15. A quota of zero (or less): the call makes the bucket directory and
    nothing else. It decodes no candidate, writes no file, records nothing,
    and returns the empty list for the bucket. *)
Theorem empty_quota_does_nothing (w : World F) (self : AudioDataProcessor)
    files output_dir domain set_type (st : state F) :
  (target_count self set_type ≤ 0)%Z →
  process_domain_files w self files output_dir domain set_type st
  = (Ok {[ (domain +:+ "_" +:+ set_type)%string := [] ]},
     add_events st
       [EvMkdir (joinpath (joinpath output_dir set_type) domain)]).
Proof.
  intros Hquota. rewrite process_domain_files_run.
  rewrite (process_files_full w self) by (simpl; lia). reflexivity.
Qed.

End RecordsAndFilesExtras.

(** ** More scenarios, run *)

Module Scenario2Facts.
Import Float64 Posix Scenario Scenario2.

Example two_windows_kept :
  process_audio Scenario2.world config "in/two.wav"
  = Ok [([1; -1; 1; -1]%float, 4%Z); ([1; -1; 1; -1]%float, 4%Z)].
Proof. by vm_compute. Qed.

(** What the run of [main] in the scenario decodes and writes back: the
    file [in/old.wav] passes the filter of [main] (its full path is no key
    of the ledger) and is skipped by the batcher (its basename is); the
    file that fails to load gets no record and is tried again in the
    evaluation pass. *)
Example main_in_the_scenario :
  main_candidates fs sources = ["in/a.wav"; "in/old.wav"; "in/bad.wav"]%string
  ∧ decoded_paths
      (events (snd (main fs Scenario.world sources (initial_state float))))
    = ["in/a.wav"; "in/bad.wav"; "in/bad.wav"]%string
  ∧ ∃ out,
      fst (main fs Scenario.world sources (initial_state float)) = Ok out
      ∧ dom (ledger (data_sources_json out)) = {[ "old.wav"; "a.wav" ]}%string
      ∧ ledger (data_sources_json out) !! "old.wav"%string = Some old_record
      ∧ dataset_splits_json out !! "speech_calibration"%string
        = Some [(OUTPUT_DIR +:+ "/calibration/speech/speech_0000.wav")%string].
Proof.
  split_and!; [by vm_compute..|].
  eexists. split; [vm_compute; reflexivity|]. split_and!; by vm_compute.
Qed.

Lemma quota_cut_inside_a_file_witness :
  process_audio Scenario2.world config "in/two.wav"
  = Ok [([1; -1; 1; -1]%float, 4%Z); ([1; -1; 1; -1]%float, 4%Z)]
  ∧ fst (process_one_file Scenario2.world config "out/calibration/music"
           "music" "calibration" "in/two.wav"
           ["out/calibration/music/music_0000.wav"%string]
           (initial_state float))
    = Ok ["out/calibration/music/music_0000.wav";
          "out/calibration/music/music_0001.wav"]%string.
Proof.
  assert (process_audio Scenario2.world config "in/two.wav"
          = Ok [([1; -1; 1; -1]%float, 4%Z); ([1; -1; 1; -1]%float, 4%Z)])
    as Hseg by (vm_compute; reflexivity).
  split; [exact Hseg|].
  rewrite (proj1 (quota_cut_inside_a_file Scenario2.world config
                    "out/calibration/music" "music" "calibration" "in/two.wav"
                    ["out/calibration/music/music_0000.wav"%string]
                    (initial_state float) _ Hseg)).
  vm_compute. reflexivity.
Defined.

Lemma nonpositive_stride_hangs_witness :
  decode Scenario.world config_stride_0 "in/long.wav" = Ok (Some long, 4%Z)
  ∧ (target_samples config_stride_0 ≤ Z.of_nat (length long))%Z
  ∧ (target_samples config_stride_0 + gap_samples config_stride_0 ≤ 0)%Z
  ∧ load_and_process_audio Scenario.world config_stride_0 "in/long.wav"
      "calibration" (initial_state float)
    = (Hang, add_events (initial_state float) [EvDecode "in/long.wav"]).
Proof.
  assert (decode Scenario.world config_stride_0 "in/long.wav"
          = Ok (Some long, 4%Z)) as Hdec by reflexivity.
  assert (target_samples config_stride_0 ≤ Z.of_nat (length long))%Z as Hlong
    by (vm_compute; discriminate).
  assert (target_samples config_stride_0 + gap_samples config_stride_0 ≤ 0)%Z
    as Hstep by (vm_compute; discriminate).
  split_and!; [exact Hdec|exact Hlong|exact Hstep|].
  exact (proj1 (proj2 (nonpositive_stride_hangs Scenario.world config_stride_0
                         "out" "music" "calibration" "in/long.wav" []
                         (initial_state float) long 4%Z Hdec Hlong Hstep))).
Defined.

Lemma decoders_answer (self : AudioDataProcessor) p :
  decode Scenario.world self p ≠ Hang.
Proof.
  unfold decode, Scenario.world. cbn [open_video librosa_load].
  destruct (String.eqb (suffix_lower p) ".mp4").
  - by destruct (String.eqb p "in/mute.mp4").
  - by repeat (match goal with |- context [String.eqb p ?x] =>
                 destruct (String.eqb p x) end).
Qed.

Lemma manifest_has_six_buckets_witness :
  ∃ splits,
    fst (create_dataset_splits Scenario.world config three_files
           ["in/long.wav"%string] [] "out" (initial_state float)) = Ok splits
    ∧ dom splits
      = {[ "speech_calibration"; "music_calibration";
           "environmental_calibration"; "speech_evaluation";
           "music_evaluation"; "environmental_evaluation" ]}%string.
Proof.
  destruct (fst (create_dataset_splits Scenario.world config three_files
                   ["in/long.wav"%string] [] "out" (initial_state float)))
    as [splits|e|] eqn:Hrun;
    [|vm_compute in Hrun; discriminate..].
  exists splits. split; [reflexivity|].
  exact (proj1 (manifest_has_six_buckets Scenario.world config three_files
                  ["in/long.wav"%string] [] "out" (initial_state float) splits
                  Hrun)).
Defined.

Lemma run_returns_manifest_witness :
  (0 < target_samples config + gap_samples config)%Z
  ∧ ∃ splits,
      fst (create_dataset_splits Scenario.world config three_files
             ["in/long.wav"%string] [] "out" (initial_state float)) = Ok splits.
Proof.
  assert (0 < target_samples config + gap_samples config)%Z as Hstep
    by reflexivity.
  split; [exact Hstep|].
  exact (run_returns_manifest Scenario.world config three_files
           ["in/long.wav"%string] [] "out" (initial_state float) Hstep
           (decoders_answer config)).
Defined.

Lemma main_keeps_ledger_witness :
  ∃ out,
    fst (main fs Scenario.world sources (initial_state float)) = Ok out
    ∧ ledger sources ⊆ ledger (data_sources_json out).
Proof.
  destruct (fst (main fs Scenario.world sources (initial_state float)))
    as [out|e|] eqn:Hmain;
    [|vm_compute in Hmain; discriminate..].
  exists out. split; [reflexivity|].
  exact (proj1 (proj2 (main_keeps_ledger fs Scenario.world sources
                         (initial_state float) out Hmain))).
Defined.

Lemma main_skips_ledger_files_witness :
  "in/a.wav"%string
  ∈ decoded_paths
      (new_events (initial_state float)
         (main fs Scenario.world sources (initial_state float)))
  ∧ basename "in/a.wav" ∉ dom (ledger sources).
Proof.
  assert ("in/a.wav"%string
          ∈ decoded_paths
              (new_events (initial_state float)
                 (main fs Scenario.world sources (initial_state float))))
    as Hin.
  { replace (decoded_paths
               (new_events (initial_state float)
                  (main fs Scenario.world sources (initial_state float))))
      with ["in/a.wav"; "in/bad.wav"; "in/bad.wav"]%string
      by (vm_compute; reflexivity).
    apply list_elem_of_here. }
  split; [exact Hin|].
  exact (proj2 (proj2 (main_skips_ledger_files fs Scenario.world sources
                         (initial_state float) "in/a.wav" Hin))).
Defined.

Lemma main_returns_witness :
  ∃ out, fst (main fs Scenario.world sources (initial_state float)) = Ok out.
Proof.
  exact (main_returns fs Scenario.world sources (initial_state float)
           (decoders_answer (main_processor sources))).
Defined.

Lemma recorded_names_were_written_witness :
  processed_files
    (snd (process_domain_files Scenario.world config three_files "out" "music"
            "calibration" (initial_state float)))
    !! "b.wav"%string
  = Some {| full_path := "in/b.wav";
            processed_datetime := "T1";
            processed_filenames := ["music_0001.wav"%string] |}
  ∧ "out/calibration/music/music_0001.wav"%string
    ∈ written_paths
        (new_events (initial_state float)
           (process_domain_files Scenario.world config three_files "out" "music"
              "calibration" (initial_state float))).
Proof.
  assert (processed_files
            (snd (process_domain_files Scenario.world config three_files "out"
                    "music" "calibration" (initial_state float)))
            !! "b.wav"%string
          = Some {| full_path := "in/b.wav";
                    processed_datetime := "T1";
                    processed_filenames := ["music_0001.wav"%string] |})
    as Hrec by (vm_compute; reflexivity).
  split; [exact Hrec|].
  exact (recorded_names_were_written Scenario.world config three_files "out"
           "music" "calibration" (initial_state float) "b.wav" _
           "music_0001.wav" Hrec eq_refl (list_elem_of_here _ _)).
Defined.

Lemma empty_quota_does_nothing_witness :
  (target_count config_quota_0 "calibration" ≤ 0)%Z
  ∧ process_domain_files Scenario.world config_quota_0 three_files "out" "music"
      "calibration" (initial_state float)
    = (Ok {[ "music_calibration"%string := [] ]},
       add_events (initial_state float) [EvMkdir "out/calibration/music"]).
Proof.
  assert (target_count config_quota_0 "calibration" ≤ 0)%Z as Hquota
    by (vm_compute; discriminate).
  split; [exact Hquota|].
  exact (empty_quota_does_nothing Scenario.world config_quota_0 three_files
           "out" "music" "calibration" (initial_state float) Hquota).
Defined.

Lemma helper_counts_any_order_witness :
  [("old.wav"%string, old_record);
   ("a.wav"%string,
    {| full_path := "in/music/a.wav";
       processed_datetime := "T0";
       processed_filenames := ["music_0000.wav"%string] |})]
  ≡ₚ [("a.wav"%string,
       {| full_path := "in/music/a.wav";
          processed_datetime := "T0";
          processed_filenames := ["music_0000.wav"%string] |});
      ("old.wav"%string, old_record)]
  ∧ Helper.set_counts
      [("old.wav"%string, old_record);
       ("a.wav"%string,
        {| full_path := "in/music/a.wav";
           processed_datetime := "T0";
           processed_filenames := ["music_0000.wav"%string] |})]
    = Helper.set_counts
        [("a.wav"%string,
          {| full_path := "in/music/a.wav";
             processed_datetime := "T0";
             processed_filenames := ["music_0000.wav"%string] |});
         ("old.wav"%string, old_record)].
Proof.
  split; [apply Permutation_swap|].
  apply HelperFacts.helper_counts_any_order, Permutation_swap.
Defined.

End Scenario2Facts.

(** ** Writes that can fail *)

Section WriteFaultsFacts.
Context {F : Type} `{NumPy F} `{OsPath}.
Variable sf_write_error : string → list F → Z → option string.
Variable w : World F.
Variable self : AudioDataProcessor.

(** When no write raises, the inner loop with writes that can fail ends as
    the inner loop of the first part does, with the same two lists and in
    the same state. *)
Lemma save_segments_no_fault out_path domain set_type
    (segments : list (list F * Z)) names written st :
  (∀ output_file segment sr, sf_write_error output_file segment sr = None) →
  ∃ names' written' st',
    save_segments self out_path domain set_type segments names written st
    = (Ok (names', written'), st')
    ∧ WriteFaults.save_segments sf_write_error self out_path domain set_type
        segments names written st
      = ((Ok tt, names', written'), st').
Proof.
  intros Hnone. revert names written st.
  induction segments as [|[segment sr] rest IH]; intros names written st.
  - by eexists _, _, _.
  - cbn [save_segments WriteFaults.save_segments].
    destruct (target_count self set_type <=? Z.of_nat (length written))%Z.
    + by eexists _, _, _.
    + unfold bind, sf_write, WriteFaults.sf_write. rewrite Hnone.
      unfold emit. apply IH.
Qed.

Lemma process_one_file_no_fault out_path domain set_type file_path written st :
  (∀ output_file segment sr, sf_write_error output_file segment sr = None) →
  WriteFaults.process_one_file sf_write_error w self out_path domain set_type
    file_path written st
  = process_one_file w self out_path domain set_type file_path written st.
Proof.
  intros Hnone.
  unfold WriteFaults.process_one_file, process_one_file, try_except, bind.
  destruct (load_and_process_audio w self file_path set_type st)
    as [[segments|e|] st1]; [|reflexivity..].
  destruct (save_segments_no_fault out_path domain set_type segments [] written
              st1 Hnone) as (names' & written' & st2 & Hrun & Hrun').
  cbv beta iota. rewrite Hrun, Hrun'. reflexivity.
Qed.

Lemma process_files_no_fault out_path domain set_type files written st :
  (∀ output_file segment sr, sf_write_error output_file segment sr = None) →
  WriteFaults.process_files sf_write_error w self out_path domain set_type
    files written st
  = process_files w self out_path domain set_type files written st.
Proof.
  intros Hnone. revert written st.
  induction files as [|file_path rest IH]; intros written st; [reflexivity|].
  cbn [process_files WriteFaults.process_files].
  destruct (decide (basename file_path ∈ previously_processed_files self));
    [apply IH|].
  destruct (target_count self set_type <=? Z.of_nat (length written))%Z;
    [reflexivity|].
  unfold bind, get_processed_files.
  destruct (decide (basename file_path ∈ dom (processed_files st)));
    [apply IH|].
  rewrite process_one_file_no_fault by done.
  destruct (process_one_file w self out_path domain set_type file_path written
              st) as [[written'|e|] st']; [apply IH|reflexivity..].
Qed.

Lemma process_domain_files_no_fault files output_dir domain set_type st :
  (∀ output_file segment sr, sf_write_error output_file segment sr = None) →
  WriteFaults.process_domain_files sf_write_error w self files output_dir
    domain set_type st
  = process_domain_files w self files output_dir domain set_type st.
Proof.
  intros Hnone.
  unfold WriteFaults.process_domain_files, process_domain_files, bind, emit.
  by rewrite process_files_no_fault.
Qed.

Lemma process_domains_no_fault output_dir set_type domains dataset_splits st :
  (∀ output_file segment sr, sf_write_error output_file segment sr = None) →
  WriteFaults.process_domains sf_write_error w self output_dir set_type
    domains dataset_splits st
  = process_domains w self output_dir set_type domains dataset_splits st.
Proof.
  intros Hnone. revert dataset_splits st.
  induction domains as [|[domain files] rest IH]; intros dataset_splits st;
    [reflexivity|].
  cbn [process_domains WriteFaults.process_domains]. unfold bind.
  rewrite process_domain_files_no_fault by done.
  destruct (process_domain_files w self files output_dir domain set_type st)
    as [[split_files|e|] st']; [apply IH|reflexivity..].
Qed.

Lemma create_dataset_splits_no_fault speech_files music_files env_files
    output_dir st :
  (∀ output_file segment sr, sf_write_error output_file segment sr = None) →
  WriteFaults.create_dataset_splits sf_write_error w self speech_files
    music_files env_files output_dir st
  = create_dataset_splits w self speech_files music_files env_files output_dir
      st.
Proof.
  intros Hnone.
  unfold WriteFaults.create_dataset_splits, create_dataset_splits, bind,
    reset_segment_stats, reset_processed_segments.
  rewrite process_domains_no_fault by done.
  match goal with
  | |- context [process_domains w self output_dir "calibration" ?d ∅ ?s] =>
      destruct (process_domains w self output_dir "calibration" d ∅ s)
        as [[dataset_splits|e|] st']
  end; [|reflexivity..].
  by rewrite process_domains_no_fault.
Qed.

End WriteFaultsFacts.

Section WriteFaultsExtras.
Context {F : Type} `{NumPy F} `{OsPath}.

(** As long as no write raises, no source file is the source of files
    written in two different calls of the batcher in one run of the
    assembler, that is, in two different buckets: a file that wrote a
    segment gets its record in [self.processed_files], the resets between
    the passes leave the records alone, and the batcher skips every
    candidate that has a record. When the run ends, its calls are the six
    buckets in order (speech, music and environmental for calibration, then
    for evaluation). *)
Theorem one_bucket_per_file_while_writes_succeed
    (sf_write_error : string → list F → Z → option string) (w : World F)
    (self : AudioDataProcessor) speech_files music_files env_files output_dir
    (st : state F) :
  (∀ output_file segment sr, sf_write_error output_file segment sr = None) →
  let r := WriteFaults.create_dataset_splits sf_write_error w self speech_files
             music_files env_files output_dir st in
  let made := contributions 0 None (new_events st r) in
  (∀ i j p, (i, Some p) ∈ made → (j, Some p) ∈ made → i = j)
  ∧ (∀ splits, fst r = Ok splits →
       mkdir_paths (new_events st r)
       = [bucket_path output_dir "speech" "calibration";
          bucket_path output_dir "music" "calibration";
          bucket_path output_dir "environmental" "calibration";
          bucket_path output_dir "speech" "evaluation";
          bucket_path output_dir "music" "evaluation";
          bucket_path output_dir "environmental" "evaluation"]).
Proof.
  intros Hnone r made. subst made r.
  rewrite create_dataset_splits_no_fault by done. split.
  - destruct (create_dataset_splits_inv w self speech_files music_files
                env_files output_dir st) as (tr & Hev & _ & Huniq).
    unfold new_events. rewrite Hev, drop_app_length. exact Huniq.
  - apply create_dataset_splits_mkdirs.
Qed.

End WriteFaultsExtras.


Module Scenario3Facts.
Import Float64 Posix Scenario Scenario2 Scenario3.

(** The run with the disk that refuses [speech_0001.wav] in the calibration
    bucket: the first window of [in/two.wav] is written there, the second
    write raises, the error is printed and the file gets no record; the
    evaluation pass decodes the file again, writes both windows and records
    the file. *)
Example run_with_a_failing_write :
  let r := WriteFaults.create_dataset_splits sf_write_error Scenario2.world
             config ["in/two.wav"%string] [] [] "out" (initial_state float) in
  events (snd r)
  = [EvMkdir "out/calibration/speech";
     EvDecode "in/two.wav";
     EvSfWrite "out/calibration/speech/speech_0000.wav"
       [1; -1; 1; -1]%float 4;
     EvPrint
       "Error processing in/two.wav: Error opening file: Permission denied";
     EvMkdir "out/calibration/music";
     EvMkdir "out/calibration/environmental";
     EvMkdir "out/evaluation/speech";
     EvDecode "in/two.wav";
     EvSfWrite "out/evaluation/speech/speech_0000.wav"
       [1; -1; 1; -1]%float 4;
     EvSfWrite "out/evaluation/speech/speech_0001.wav"
       [1; -1; 1; -1]%float 4;
     EvMkdir "out/evaluation/music";
     EvMkdir "out/evaluation/environmental"]
  ∧ (∃ splits,
       fst r = Ok splits
       ∧ splits !! "speech_calibration"%string
         = Some ["out/calibration/speech/speech_0000.wav"%string]
       ∧ splits !! "speech_evaluation"%string
         = Some ["out/evaluation/speech/speech_0000.wav";
                 "out/evaluation/speech/speech_0001.wav"]%string)
  ∧ processed_files (snd r) !! "two.wav"%string
    = Some {| full_path := "in/two.wav";
              processed_datetime := "T0";
              processed_filenames := ["speech_0000.wav"; "speech_0001.wav"] |}.
Proof.
  intros r. split; [by vm_compute|]. split; [|by vm_compute].
  eexists. split; [vm_compute; reflexivity|]. split; by vm_compute.
Qed.

(** The same file and the same configuration on a disk that refuses
    nothing: the calibration pass writes both windows and records the file,
    and the evaluation pass skips it. *)
Lemma one_bucket_per_file_while_writes_succeed_witness :
  (∀ (output_file : string) (segment : list float) (sr : Z),
     (λ _ _ _, None) output_file segment sr = @None string)
  ∧ let r := WriteFaults.create_dataset_splits (λ _ _ _, None) Scenario2.world
               config ["in/two.wav"%string] [] [] "out"
               (initial_state float) in
    let made := contributions 0 None (new_events (initial_state float) r) in
    made = [(1, Some "in/two.wav"); (1, Some "in/two.wav")]%string
    ∧ ∀ i j p, (i, Some p) ∈ made → (j, Some p) ∈ made → i = j.
Proof.
  split; [reflexivity|]. intros r made. split; [by vm_compute|].
  exact (proj1 (one_bucket_per_file_while_writes_succeed (λ _ _ _, None)
                  Scenario2.world config ["in/two.wav"%string] [] [] "out"
                  (initial_state float) (λ _ _ _, eq_refl))).
Defined.

End Scenario3Facts.
